(** * Basic Object Notation: a shallow embedding of BasicObjectNotation.py

    The development follows the layout of the Python module: characters and
    the builtins the parser relies on, [TextQueue], the document model
    ([BONNode], [BONObject]), and [BONParser] with its classifier and its
    mutually recursive parse routines.

    Conventions.
    - A Python character is an [ascii] (code points 0..255); a Python [str]
      is a [string], and the content of a queue is a [list ascii].
    - The parser owns one mutable queue, [self.text].  Every routine is a
      function from the queue before the call to an outcome and the queue
      after the call.  An exception leaves the queue as it was when raised.
    - The [data] parameter of the parse routines is always taken at its
      default, [self.text]. *)

From Stdlib Require Import Bool Arith ZArith QArith Lia List Ascii String.
Import ListNotations.

Local Open Scope Z_scope.
Local Open Scope char_scope.
Local Open Scope string_scope.
Local Open Scope list_scope.

(* ================================================================= *)
(** ** Characters and the string builtins used by the parser *)

Module Char.

Definition code (c : ascii) : N := N_of_ascii c.

Definition dquote : ascii := "034".
Definition squote : ascii := "'".
Definition backslash : ascii := "\".
Definition tab : ascii := "009".
Definition newline : ascii := "010".
Definition space : ascii := " ".

Definition between (lo hi : N) (c : ascii) : bool :=
  (N.leb lo (code c) && N.leb (code c) hi)%bool.

(** [c in '0123456789'] *)
Definition is_ascii_digit (c : ascii) : bool := between 48 57 c.

(** [str.isdigit] on one character: the decimal digits and, in the
    Latin-1 range, the superscripts two, three and one. *)
Definition isdigit (c : ascii) : bool :=
  (is_ascii_digit c || N.eqb (code c) 178 || N.eqb (code c) 179
   || N.eqb (code c) 185)%bool.

(** [str.isalpha] on one character: the ASCII letters and the letters of
    the Latin-1 range. *)
Definition isalpha (c : ascii) : bool :=
  (between 65 90 c || between 97 122 c
   || N.eqb (code c) 170 || N.eqb (code c) 181 || N.eqb (code c) 186
   || between 192 214 c || between 216 246 c || between 248 255 c)%bool.

(** [str.isspace] on one character; this is the set [str.strip()]
    removes at both ends. *)
Definition isspace (c : ascii) : bool :=
  (between 9 13 c || between 28 32 c
   || N.eqb (code c) 133 || N.eqb (code c) 160)%bool.

(** The white space [int] and [float] accept around a number: the C white
    space, codes 9 to 13 and the space, and the Latin-1 spaces 133 and 160,
    which both builtins turn into a space before they read the text.  The
    separators 28 to 31, white space for [str.strip()], are not in it. *)
Definition is_numeric_space (c : ascii) : bool :=
  (between 9 13 c || N.eqb (code c) 32
   || N.eqb (code c) 133 || N.eqb (code c) 160)%bool.

Definition lower (c : ascii) : ascii :=
  if between 65 90 c then ascii_of_N (code c + 32) else c.

Definition digit_value (c : ascii) : Z := Z.of_N (code c) - 48.

End Char.

Module Str.

Definition chars (s : string) : list ascii := list_ascii_of_string s.
Definition of_chars (l : list ascii) : string := string_of_list_ascii l.

(** [c in s] for a one-character [c]. *)
Definition mem (c : ascii) (s : string) : bool :=
  existsb (Ascii.eqb c) (chars s).

(** [s.count(c)] for a one-character [c]. *)
Definition count (c : ascii) (s : list ascii) : nat :=
  List.length (filter (Ascii.eqb c) s).

(** [s.rindex(c)]: the highest index holding [c]; [None] stands for the
    ValueError of an absent character. *)
Fixpoint rindex_from (i : nat) (c : ascii) (s : list ascii) : option nat :=
  match s with
  | [] => None
  | x :: s' =>
      match rindex_from (S i) c s' with
      | Some j => Some j
      | None => if Ascii.eqb x c then Some i else None
      end
  end.
Definition rindex (c : ascii) (s : list ascii) : option nat :=
  rindex_from 0 c s.

Fixpoint lstrip_by (p : ascii -> bool) (s : list ascii) : list ascii :=
  match s with
  | c :: s' => if p c then lstrip_by p s' else s
  | [] => []
  end.
Definition rstrip_by (p : ascii -> bool) (s : list ascii) : list ascii :=
  rev (lstrip_by p (rev s)).
Definition strip_by (p : ascii -> bool) (s : list ascii) : list ascii :=
  rstrip_by p (lstrip_by p s).

(** The text without the white space [int] and [float] skip at both
    ends. *)
Definition strip_numeric : list ascii -> list ascii :=
  strip_by Char.is_numeric_space.

(** [s.strip()], [s.lstrip()] and [s.strip(c)]. *)
Definition strip : list ascii -> list ascii := strip_by Char.isspace.
Definition lstrip : list ascii -> list ascii := lstrip_by Char.isspace.
Definition strip_char (c : ascii) : list ascii -> list ascii :=
  strip_by (Ascii.eqb c).

(** [s.replace(c, '')] for a one-character [c]. *)
Definition remove (c : ascii) (s : list ascii) : list ascii :=
  filter (fun x => negb (Ascii.eqb x c)) s.

End Str.

(* ================================================================= *)
(** ** Numbers: the builtins [int] and [float] on strings *)

(** A float is kept as the number its literal denotes: a sign and an exact
    non-negative rational in lowest terms.  The rounding of that rational
    to a binary64 value, and the overflow of a huge literal to infinity,
    are not part of the model. *)
Inductive pyfloat : Type :=
| FFinite (negative : bool) (magnitude : Q)
| FInf (negative : bool)
| FNan.

Module Num.

(** A run of decimal digits in which single underscores may separate two
    digits: returns the digits read and the rest of the text. *)
Fixpoint digitpart (s : list ascii) : list ascii * list ascii :=
  match s with
  | [] => ([], [])
  | c :: s' =>
      if Char.is_ascii_digit c then
        let (ds, r) :=
          match s' with
          | u :: ((d :: _) as s'') =>
              if (Ascii.eqb u "_" && Char.is_ascii_digit d)%bool
              then digitpart s'' else digitpart s'
          | _ => digitpart s'
          end in
        (c :: ds, r)
      else ([], s)
  end.

Definition digits_value (ds : list ascii) : Z :=
  fold_left (fun acc c => 10 * acc + Char.digit_value c) ds 0.

(** An optional sign: [true] for a minus. *)
Definition sign (s : list ascii) : bool * list ascii :=
  match s with
  | "-"%char :: s' => (true, s')
  | "+"%char :: s' => (false, s')
  | _ => (false, s)
  end.

(** [sys.int_info.default_max_str_digits]: the number of digits beyond
    which [int] refuses a decimal text.  This is the default of CPython
    from version 3.11 on; an interpreter set up otherwise has another limit
    or none. *)
Definition int_max_str_digits : nat := 4300.

(** [int(s)] in base ten; [None] is ValueError.  The digits are counted
    without the sign and the underscores, leading zeros included. *)
Definition py_int (s : string) : option Z :=
  let (neg, body) := sign (Str.strip_numeric (Str.chars s)) in
  match digitpart body with
  | ((_ :: _) as ds, []) =>
      if Nat.leb (List.length ds) int_max_str_digits
      then Some (if neg then - digits_value ds else digits_value ds)
      else None
  | _ => None
  end.

Definition pow10 (e : Z) : Q :=
  if (e <? 0)%Z then 1 # Pos.pow 10 (Z.to_pos (- e))
  else inject_Z (10 ^ e).

(** The exponent suffix of a float literal: its value and what follows;
    an absent suffix counts as exponent zero. *)
Definition exponent (s : list ascii) : option (Z * list ascii) :=
  match s with
  | c :: s' =>
      if (Ascii.eqb c "e" || Ascii.eqb c "E")%bool then
        let (neg, body) := sign s' in
        match digitpart body with
        | ((_ :: _) as ds, r) =>
            Some (if neg then - digits_value ds else digits_value ds, r)
        | _ => None
        end
      else Some (0, s)
  | [] => Some (0, [])
  end.

Definition finite (s : list ascii) : option Q :=
  let (ip, r1) := digitpart s in
  let (fp, r2) :=
    match r1 with
    | "."%char :: r => digitpart r
    | _ => ([], r1)
    end in
  match ip ++ fp with
  | [] => None
  | m =>
      match exponent r2 with
      | Some (e, []) =>
          Some (Qred (inject_Z (digits_value m)
                      * pow10 (e - Z.of_nat (List.length fp))))
      | _ => None
      end
  end.

(** [float(s)]; [None] is ValueError. *)
Definition py_float (s : string) : option pyfloat :=
  let (neg, body) := sign (Str.strip_numeric (Str.chars s)) in
  let word := Str.of_chars (map Char.lower body) in
  if (String.eqb word "inf" || String.eqb word "infinity")%bool
  then Some (FInf neg)
  else if String.eqb word "nan" then Some FNan
  else option_map (FFinite neg) (finite body).

End Num.


(* ================================================================= *)
(** ** Outcomes of a call *)

(** The exceptions the module can raise.  [Exception] carries its message;
    the builtin exceptions are kept without their arguments. *)
Inductive pyerror : Type :=
| Exception (msg : string)
| KeyError
| ValueError
| TypeError
| IndexError
| AttributeError.

(** A call returns, raises, or (for the fuel-indexed routines only) runs
    out of fuel. *)
Inductive outcome (A : Type) : Type :=
| Ok (a : A)
| Raise (e : pyerror)
| OutOfFuel.
Arguments Ok {A} a.
Arguments Raise {A} e.
Arguments OutOfFuel {A}.

(* ================================================================= *)
(** ** class BONType *)

Inductive BONType : Type :=
| string_t      (* BONType.string *)
| number
| bon_object
| bon_list
| bon_node
| invalid.

Definition BONType_eqb (a b : BONType) : bool :=
  match a, b with
  | string_t, string_t | number, number | bon_object, bon_object
  | bon_list, bon_list | bon_node, bon_node | invalid, invalid => true
  | _, _ => false
  end.

(* ================================================================= *)
(** ** class TextQueue *)

Module TextQueue.

(** The characters still to be read, the next one first.  The Python
    object is a deque that is filled with [appendleft] and emptied with
    [pop], so the deque read from left to right is this list reversed. *)
Definition t : Type := list ascii.

Definition deque (q : t) : list ascii := rev q.
Definition of_deque (d : list ascii) : t := rev d.

Definition len (q : t) : nat := List.length (deque q).

(** [is_empty]: [len(self) == 0] *)
Definition is_empty (q : t) : bool := Nat.eqb (len q) 0.

(** [peek]: [self[len(self)-(1+index)] if len(self) > index else None] *)
Definition peek (index : nat) (q : t) : option ascii :=
  if Nat.ltb index (len q)
  then nth_error (deque q) (len q - (1 + index))
  else None.

(** [push]: [self.appendleft(char)] *)
Definition push (char : ascii) (q : t) : t := of_deque (char :: deque q).

(** [deque.pop]: removes and returns the rightmost element; [None] is the
    IndexError of an empty deque. *)
Definition pop (q : t) : option (ascii * t) :=
  match q with
  | [] => None
  | c :: q' => Some (c, q')
  end.

(** [__init__]: pushes the characters of [data] in order. *)
Definition init (data : list ascii) : t :=
  fold_left (fun q c => push c q) data [].

(** [__iter__]: [for x in range(0, len(self)): yield self.peek(x)] *)
Definition iter (q : t) : list (option ascii) :=
  map (fun x => peek x q) (seq 0 (len q)).

(** [__str__]: ["".join([x for x in self])]; joining fails with a
    TypeError on an absent character. *)
Fixpoint join (l : list (option ascii)) : option (list ascii) :=
  match l with
  | [] => Some []
  | Some c :: l' => option_map (cons c) (join l')
  | None :: _ => None
  end.
Definition str (q : t) : option string :=
  option_map Str.of_chars (join (iter q)).

End TextQueue.

(* ================================================================= *)
(** ** The document model: values, class BONNode, class BONObject *)

(** What a parse routine can return: [None] (a routine that falls off its
    end), a [str], an [int], a [float], a [list], a [BONNode] or a
    [BONObject].  A node's key is [None] until a colon has been read. *)
#[warnings="-register-all"]
Inductive value : Type :=
| VNone
| VStr (s : string)
| VInt (n : Z)
| VFloat (x : pyfloat)
| VList (items : list value)
| VNode (node : BONNode)
| VObject (obj : BONObject)
with BONNode : Type :=
| mkBONNode (key : option string) (val : value)
with BONObject : Type :=
| mkBONObject (nodes : list BONNode).

Definition node_key (n : BONNode) : option string :=
  let (k, _) := n in k.
Definition node_value (n : BONNode) : value :=
  let (_, v) := n in v.
Definition obj_nodes (o : BONObject) : list BONNode :=
  let (l) := o in l.

(** A key as a Python value. *)
Definition key_value (k : option string) : value :=
  match k with
  | None => VNone
  | Some s => VStr s
  end.

Module PyEq.

Definition float_eqb (x y : pyfloat) : bool :=
  match x, y with
  | FFinite s p, FFinite s' q =>
      (Qeq_bool p q && (Bool.eqb s s' || Qeq_bool p 0))%bool
  | FInf s, FInf s' => Bool.eqb s s'
  | _, _ => false
  end.

Definition int_float_eqb (n : Z) (x : pyfloat) : bool :=
  match x with
  | FFinite s p => Qeq_bool (inject_Z n) (if s then Qopp p else p)
  | _ => false
  end.

(** The contents of [a] and of [b] are equal: strings, numbers and [None]
    by their value, lists element by element, nodes and objects field by
    field.  For values without nodes and objects this is [a == b]. *)
Fixpoint eqb (a b : value) {struct a} : bool :=
  match a, b with
  | VNone, VNone => true
  | VStr s, VStr s' => String.eqb s s'
  | VInt m, VInt n => Z.eqb m n
  | VInt m, VFloat y => int_float_eqb m y
  | VFloat x, VInt n => int_float_eqb n x
  | VFloat x, VFloat y => float_eqb x y
  | VList l, VList l' =>
      (fix all2 (l : list value) (l' : list value) {struct l} : bool :=
         match l, l' with
         | [], [] => true
         | x :: l, y :: l' => (eqb x y && all2 l l')%bool
         | _, _ => false
         end) l l'
  | VNode n, VNode n' => node_eqb n n'
  | VObject o, VObject o' => obj_eqb o o'
  | _, _ => false
  end
with node_eqb (n n' : BONNode) {struct n} : bool :=
  match n, n' with
  | mkBONNode k v, mkBONNode k' v' =>
      (match k, k' with
       | None, None => true
       | Some s, Some s' => String.eqb s s'
       | _, _ => false
       end && eqb v v')%bool
  end
with obj_eqb (o o' : BONObject) {struct o} : bool :=
  match o, o' with
  | mkBONObject l, mkBONObject l' =>
      (fix all2 (l : list BONNode) (l' : list BONNode) {struct l} : bool :=
         match l, l' with
         | [], [] => true
         | x :: l, y :: l' => (node_eqb x y && all2 l l')%bool
         | _, _ => false
         end) l l'
  end.

(** A value that holds no node and no object. *)
Fixpoint plain (v : value) : bool :=
  match v with
  | VNone | VStr _ | VInt _ | VFloat _ => true
  | VList l =>
      (fix all (l : list value) : bool :=
         match l with
         | [] => true
         | x :: l' => (plain x && all l')%bool
         end) l
  | VNode _ | VObject _ => false
  end.

(** [a == b].  [BONNode] and [BONObject] define no [__eq__], so Python
    compares such objects by identity, which the contents do not show.
    When one side is plain, or the contents differ, the answer is known;
    otherwise it is [None]: [True] for the same objects, [False] for
    distinct ones. *)
Definition eq (a b : value) : option bool :=
  if (plain a || plain b)%bool then Some (eqb a b)
  else if eqb a b then None else Some false.

End PyEq.

(** *** class BONNode *)

(** [__contains__]: [self.key == item or self.value == item].  [None]
    stands for an answer that the contents do not decide: the key differs
    from the item, and value and item are nodes or objects (or lists
    holding some) of equal contents, so that the answer is [True] exactly
    when they are the same objects. *)
Definition BONNode_contains (n : BONNode) (item : value) : option bool :=
  match PyEq.eq (key_value (node_key n)) item with
  | Some true => Some true
  | _ => PyEq.eq (node_value n) item
  end.

(** *** class BONObject *)









(** [add_node]: [self.nodes.append(node)] *)
Definition BONObject_add_node (o : BONObject) (node : BONNode) : BONObject :=
  mkBONObject (obj_nodes o ++ [node]).

(** [__contains__]: the first node whose key is [item] answers [True]. *)
Fixpoint contains_loop (nodes : list BONNode) (item : value) : bool :=
  match nodes with
  | [] => false
  | node :: rest =>
      if PyEq.eqb (key_value (node_key node)) item then true
      else contains_loop rest item
  end.
Definition BONObject_contains (o : BONObject) (item : value) : bool :=
  contains_loop (obj_nodes o) item.

(** [__getitem__]: the value of the first node whose key is [item], or
    KeyError. *)
Fixpoint getitem_loop (nodes : list BONNode) (item : value) : outcome value :=
  match nodes with
  | [] => Raise KeyError
  | node :: rest =>
      if PyEq.eqb (key_value (node_key node)) item then Ok (node_value node)
      else getitem_loop rest item
  end.
Definition BONObject_getitem (o : BONObject) (item : value) : outcome value :=
  getitem_loop (obj_nodes o) item.

(** [__delitem__].  The loop runs over [enumerate(self.nodes)] without a
    break and overwrites [index] at every match. *)
Fixpoint delitem_scan (loop_index : nat) (nodes : list BONNode) (key : value)
    (index : option nat) : option nat :=
  match nodes with
  | [] => index
  | node :: rest =>
      delitem_scan (S loop_index) rest key
        (if PyEq.eqb (key_value (node_key node)) key
         then Some loop_index else index)
  end.

(** [not index] for an index that is [None] or an [int]. *)
Definition not_index (index : option nat) : bool :=
  match index with
  | None => true
  | Some i => Nat.eqb i 0
  end.

(** [del l[i]] for [i] within the list. *)
Fixpoint del_at (i : nat) (l : list BONNode) : list BONNode :=
  match i, l with
  | _, [] => []
  | O, _ :: l' => l'
  | S i', x :: l' => x :: del_at i' l'
  end.

Definition BONObject_delitem (o : BONObject) (key : value) : outcome BONObject :=
  let index := delitem_scan 0 (obj_nodes o) key None in
  if not_index index then Raise KeyError
  else match index with
       | Some i => Ok (mkBONObject (del_at i (obj_nodes o)))
       | None => Raise KeyError
       end.

(** [__iter__] yields the nodes in order. *)
Definition BONObject_iter (o : BONObject) : list BONNode := obj_nodes o.

(* ================================================================= *)
(** ** The parser's state: routines that read and consume [self.text] *)

Definition M (A : Type) : Type := TextQueue.t -> outcome A * TextQueue.t.

Definition ret {A : Type} (a : A) : M A := fun q => (Ok a, q).
Definition raise {A : Type} (e : pyerror) : M A := fun q => (Raise e, q).
Definition out_of_fuel {A : Type} : M A := fun q => (OutOfFuel, q).
Definition lift {A : Type} (o : outcome A) : M A := fun q => (o, q).

Definition bind {A B : Type} (m : M A) (k : A -> M B) : M B :=
  fun q =>
    match m q with
    | (Ok a, q') => k a q'
    | (Raise e, q') => (Raise e, q')
    | (OutOfFuel, q') => (OutOfFuel, q')
    end.

Notation "x <- m ;; k" := (bind m (fun x => k))
  (at level 61, m at next level, right associativity).

(** The queue methods as actions on [self.text]. *)
Definition text_len : M nat := fun q => (Ok (TextQueue.len q), q).
Definition text_is_empty : M bool := fun q => (Ok (TextQueue.is_empty q), q).
Definition text_peek (index : nat) : M (option ascii) :=
  fun q => (Ok (TextQueue.peek index q), q).
Definition text_pop : M ascii :=
  fun q =>
    match TextQueue.pop q with
    | Some (c, q') => (Ok c, q')
    | None => (Raise IndexError, q)
    end.

(** The characters of a local buffer, as [str(buffer)] joins them and as a
    generator expression over the buffer reads them; an absent character
    would be a TypeError in both uses. *)
Definition buffer_chars {A : Type} (buffer : TextQueue.t)
    (k : list ascii -> outcome A) : outcome A :=
  match TextQueue.join (TextQueue.iter buffer) with
  | Some l => k l
  | None => Raise TypeError
  end.

(* ================================================================= *)
(** ** class BONParser *)

Module BONParser.

Definition opening_map (c : ascii) : option BONType :=
  if Ascii.eqb c "{" then Some bon_object
  else if Ascii.eqb c "[" then Some bon_list
  else if Ascii.eqb c Char.dquote then Some string_t
  else if Ascii.eqb c Char.squote then Some string_t
  else if Ascii.eqb c ":" then Some bon_node
  else None.

Definition invalid_chars (c : ascii) : bool :=
  (Ascii.eqb c Char.tab || Ascii.eqb c Char.newline)%bool.

Definition integer_digits : string := "0123456789".
Definition float_digits : string := "0123456789.fe-".

Definition is_quote (c : ascii) : bool :=
  (Ascii.eqb c Char.dquote || Ascii.eqb c Char.squote)%bool.

(** [__init__]: the text without its newlines and tabs, loaded into a
    queue. *)
Definition init (data : string) : TextQueue.t :=
  TextQueue.init
    (Str.remove Char.tab (Str.remove Char.newline (Str.chars data))).

(** *** determine_type *)

(** [is_escaped = (char == '\\' and not is_escaped)] *)
Definition next_escaped (char : ascii) (is_escaped : bool) : bool :=
  (Ascii.eqb char Char.backslash && negb is_escaped)%bool.

(** The loop over [self.text]: the iterator yields [self.peek(x)] for [x]
    in [range(0, len(self))].  A method call on an absent character would
    be an AttributeError. *)
Fixpoint determine_type_loop (xs : list nat) (is_escaped alpha_found : bool)
    : M BONType :=
  match xs with
  | [] => ret invalid
  | x :: xs' =>
      char <- text_peek x ;;
      match char with
      | Some c =>
          if negb is_escaped then
            match opening_map c with
            | Some ty => ret ty
            | None =>
                if (Char.isalpha c && negb alpha_found)%bool then
                  determine_type_loop xs' (next_escaped c is_escaped) true
                else if (Char.isdigit c && negb alpha_found)%bool then
                  ret number
                else
                  determine_type_loop xs' (next_escaped c is_escaped)
                    alpha_found
            end
          else
            determine_type_loop xs' (next_escaped c is_escaped) alpha_found
      | None =>
          if negb is_escaped then raise AttributeError
          else determine_type_loop xs' false alpha_found
      end
  end.

Definition determine_type : M BONType :=
  n <- text_len ;;
  determine_type_loop (seq 0 n) false false.

(** The classifier as a function of the characters ahead. *)
Fixpoint classify (is_escaped alpha_found : bool) (s : list ascii) : BONType :=
  match s with
  | [] => invalid
  | c :: s' =>
      if negb is_escaped then
        match opening_map c with
        | Some ty => ty
        | None =>
            if (Char.isalpha c && negb alpha_found)%bool then
              classify (next_escaped c is_escaped) true s'
            else if (Char.isdigit c && negb alpha_found)%bool then number
            else classify (next_escaped c is_escaped) alpha_found s'
        end
      else classify (next_escaped c is_escaped) alpha_found s'
  end.

(** *** parse_float *)

Definition parse_float (data : string) : outcome value :=
  let s := Str.chars data in
  if Nat.ltb 1 (Str.count "f" s) then
    Raise (Exception "Float token error: too many tokens present.")
  else if (Str.mem "f" data
           && negb match Str.rindex "f" s with
                   | Some i => Nat.eqb i (List.length s - 1)
                   | None => false
                   end)%bool then
    Raise (Exception "Float token error: misplaced token.")
  else
    match Num.py_float (Str.of_chars (Str.strip_char "f" s)) with
    | Some x => Ok (VFloat x)
    | None => Raise ValueError
    end.

(** *** parse_number *)

(** [while not data.is_empty and (data.peek() in self.float_digits or
    data.peek() == ' '): buffer.push(data.pop())] *)
Fixpoint number_loop (buffer : TextQueue.t) (q : TextQueue.t)
    : TextQueue.t * TextQueue.t :=
  match q with
  | [] => (buffer, [])
  | c :: q' =>
      if (Str.mem c float_digits || Ascii.eqb c " ")%bool
      then number_loop (TextQueue.push c buffer) q'
      else (buffer, q)
  end.

(** The part of [parse_number] that follows the loop. *)
Definition number_of_buffer (buffer : TextQueue.t) : outcome value :=
  buffer_chars buffer (fun l =>
    if forallb (fun x => (Str.mem x integer_digits || Ascii.eqb x " ")%bool) l
    then match Num.py_int (Str.of_chars l) with
         | Some n => Ok (VInt n)
         | None => Raise ValueError
         end
    else parse_float (Str.of_chars l)).

Definition parse_number : M value :=
  fun q =>
    let (buffer, q') := number_loop [] q in
    (number_of_buffer buffer, q').

(** *** parse_string *)

Definition missing_quote : string :=
  "Expected token ' " ++ String Char.dquote " ' not found.".

(** [while not data.is_empty: char = data.pop(); ...]: one turn per
    character; the loop that ends without a closing quote raises. *)
Fixpoint string_loop (buffer : TextQueue.t) (start_found is_escaped : bool)
    (q : TextQueue.t) : outcome value * TextQueue.t :=
  match q with
  | [] => (Raise (Exception missing_quote), [])
  | char :: q' =>
      if (start_found && negb is_escaped && is_quote char)%bool then
        (buffer_chars buffer (fun l => Ok (VStr (Str.of_chars l))), q')
      else if (start_found && negb (invalid_chars char))%bool then
        string_loop
          (if (negb (Ascii.eqb char Char.backslash) || is_escaped)%bool
           then TextQueue.push char buffer else buffer)
          start_found (next_escaped char is_escaped) q'
      else if is_quote char then
        string_loop buffer true (next_escaped char is_escaped) q'
      else
        string_loop buffer start_found (next_escaped char is_escaped) q'
  end.

Definition parse_string : M value := string_loop [] false false.

(** *** parse_value, parse_list, parse_node, parse_object *)

(** These routines call each other; [fuel] bounds the number of nested
    calls and loop turns.  [parse_value] below supplies enough of it. *)

Definition missing_semicolon : string := "Expected token ';' not found.".
Definition missing_open_brace : string := "Expected token '{' not found.".
Definition missing_close_brace : string := "Expected token '}' not found".

(** [nodes.append(self.parse_value())] in [parse_object]: the classifier
    has just answered [bon_node], so the value is a [BONNode]
    ([parse_value_fuel_node] below); the other case is never taken. *)
Definition append_node (nodes : list BONNode) (v : value)
    (k : list BONNode -> M value) : M value :=
  match v with
  | VNode n => k (nodes ++ [n])
  | _ => raise TypeError
  end.

Fixpoint parse_value_fuel (fuel : nat) : M value :=
  match fuel with
  | O => out_of_fuel
  | S fuel' =>
      type <- determine_type ;;
      match type with
      | number => parse_number
      | string_t => parse_string
      | bon_node => parse_node_loop fuel' [] None VNone
      | bon_list => parse_list_loop fuel' [] false
      | bon_object => parse_object_loop fuel' [] false
      | invalid => raise KeyError       (* [type_map[type]] *)
      end
  end

with parse_list_loop (fuel : nat) (new_list : list value)
    (start_found : bool) : M value :=
  match fuel with
  | O => out_of_fuel
  | S fuel' =>
      empty <- text_is_empty ;;
      if empty then ret VNone           (* the loop ends, nothing returned *)
      else
        char <- text_pop ;;
        let start_found :=
          if (negb start_found && Ascii.eqb char "[")%bool
          then true else start_found in
        if start_found then
          if (Ascii.eqb char "," || Ascii.eqb char "[")%bool then
            v <- parse_value_fuel fuel' ;;
            parse_list_loop fuel' (new_list ++ [v]) start_found
          else if Ascii.eqb char "]" then ret (VList new_list)
          else if negb (Ascii.eqb char " ") then
            raise (Exception "Malformed list provided")
          else parse_list_loop fuel' new_list start_found
        else parse_list_loop fuel' new_list start_found
  end

with parse_node_loop (fuel : nat) (buffer : TextQueue.t)
    (key : option string) (val : value) : M value :=
  match fuel with
  | O => out_of_fuel
  | S fuel' =>
      empty <- text_is_empty ;;
      if empty then raise (Exception missing_semicolon)
      else
        char <- text_pop ;;
        if Ascii.eqb char ":" then
          k <- lift (buffer_chars buffer (fun l =>
                       Ok (Str.of_chars (Str.lstrip (Str.strip l))))) ;;
          v <- parse_value_fuel fuel' ;;
          parse_node_loop fuel' buffer (Some k) v
        else if Ascii.eqb char ";" then ret (VNode (mkBONNode key val))
        else if (negb (Ascii.eqb char " ")
                 && match key with None => true | Some _ => false end)%bool
        then parse_node_loop fuel' (TextQueue.push char buffer) key val
        else parse_node_loop fuel' buffer key val
  end

with parse_object_loop (fuel : nat) (nodes : list BONNode)
    (start_found : bool) : M value :=
  match fuel with
  | O => out_of_fuel
  | S fuel' =>
      empty <- text_is_empty ;;
      if empty then
        if negb start_found then raise (Exception missing_open_brace)
        else raise (Exception missing_close_brace)
      else
        char <- text_peek 0 ;;
        if match char with Some c => Ascii.eqb c "{" | None => false end then
          _ <- text_pop ;;
          type <- determine_type ;;
          if negb (BONType_eqb type bon_node) then
            raise TypeError             (* [raise] of a plain [str] *)
          else
            v <- parse_value_fuel fuel' ;;
            append_node nodes v (fun nodes' =>
              parse_object_loop fuel' nodes' true)
        else if match char with Some c => Ascii.eqb c "}" | None => false end
        then
          _ <- text_pop ;;
          ret (VObject (mkBONObject nodes))
        else if (start_found
                 && negb match char with
                         | Some c => Ascii.eqb c " "
                         | None => false
                         end)%bool then
          type <- determine_type ;;
          if negb (BONType_eqb type bon_node) then raise TypeError
          else
            v <- parse_value_fuel fuel' ;;
            append_node nodes v (fun nodes' =>
              parse_object_loop fuel' nodes' start_found)
        else
          _ <- text_pop ;;
          parse_object_loop fuel' nodes start_found
  end.

(** Fuel that is enough for a queue [q] ([parse_value_fuel_total]). *)
Definition fuel_for (q : TextQueue.t) : nat := 4 * List.length q + 4.

Definition parse_value : M value :=
  fun q => parse_value_fuel (fuel_for q) q.
Definition parse_list : M value :=
  fun q => parse_list_loop (fuel_for q) [] false q.
Definition parse_node : M value :=
  fun q => parse_node_loop (fuel_for q) [] None VNone q.
Definition parse_object : M value :=
  fun q => parse_object_loop (fuel_for q) [] false q.

(** A parser made from [data], then [parse_value()]. *)
Definition parse (data : string) : outcome value * TextQueue.t :=
  parse_value (init data).

End BONParser.

(* ================================================================= *)
(** ** Vocabulary of the statements *)

(** A double quote as a string, for writing inputs. *)
Definition dq : string := String Char.dquote "".

(** The body of a string literal, piece by piece: a plain character, or a
    backslash followed by the character it escapes. *)
Inductive piece : Type :=
| Plain (c : ascii)
| Escaped (c : ascii).

(** The characters a piece is written with. *)
Definition written (p : piece) : list ascii :=
  match p with
  | Plain c => [c]
  | Escaped c => [Char.backslash; c]
  end.

(** The characters a piece stands for: its character, unless that is a tab
    or a newline, which are never kept. *)
Definition meant (p : piece) : list ascii :=
  let c := match p with Plain c => c | Escaped c => c end in
  if BONParser.invalid_chars c then [] else [c].

(** A plain piece is neither a quote nor a backslash. *)
Definition well_formed_piece (p : piece) : bool :=
  match p with
  | Plain c => (negb (BONParser.is_quote c)
                && negb (Ascii.eqb c Char.backslash))%bool
  | Escaped _ => true
  end.

(** The characters [parse_number] accumulates from a queue. *)
Definition number_buffer (q : TextQueue.t) : list ascii :=
  fst (BONParser.number_loop [] q).

Definition digit_or_space (c : ascii) : bool :=
  (Char.is_ascii_digit c || Ascii.eqb c " ")%bool.

(** The letter [f] occurs more than once in the buffer. *)
Definition f_more_than_once (l : list ascii) : Prop :=
  (1 < Str.count "f" l)%nat.

(** The letter [f] occurs somewhere before the last character. *)
Definition f_before_last (l : list ascii) : Prop :=
  In "f"%char (removelast l).

(** The two errors of [parse_float] about the letter [f]. *)
Definition float_token_error (o : outcome value) : Prop :=
  o = Raise (Exception "Float token error: too many tokens present.")
  \/ o = Raise (Exception "Float token error: misplaced token.").

(** The characters [parse_number] takes into its buffer. *)
Definition number_char (c : ascii) : bool :=
  (Str.mem c BONParser.float_digits || Ascii.eqb c " ")%bool.

(** A character [parse_node] passes over without ending or splitting the
    node: neither the colon nor the semicolon. *)
Definition inside_node (c : ascii) : bool :=
  (negb (Ascii.eqb c ":") && negb (Ascii.eqb c ";"))%bool.

(** The key [parse_node] makes of the characters written before the colon:
    the spaces are not kept, and what is kept is stripped. *)
Definition key_of (written_key : list ascii) : string :=
  Str.of_chars (Str.lstrip (Str.strip (Str.remove " " written_key))).

(** A character that can follow the first letter of a key without
    deciding the kind of the text: no opening character, no backslash and
    no semicolon. *)
Definition key_char (c : ascii) : bool :=
  (match BONParser.opening_map c with Some _ => false | None => true end
   && negb (Ascii.eqb c Char.backslash) && negb (Ascii.eqb c ";"))%bool.

(** The text of a node with a string value, [key: "body";]. *)
Definition string_node_text (key : list ascii) (body : list piece)
    : list ascii :=
  key ++ ":"%char :: " "%char :: Char.dquote
      :: flat_map written body ++ [Char.dquote; ";"%char].

Definition string_node (key : list ascii) (body : list piece) : BONNode :=
  mkBONNode (Some (key_of key)) (VStr (Str.of_chars (flat_map meant body))).

(** A key that starts with a letter and goes on with [key_char]s, and a
    body of well-formed pieces. *)
Definition well_formed_string_node (key : list ascii) (body : list piece)
    : bool :=
  (match key with
   | [] => false
   | c :: key' => Char.isalpha c && forallb key_char key'
   end && forallb well_formed_piece body)%bool.

(** An integer as it stands in a list: spaces, digits, spaces. *)
Definition int_item : Type := nat * list ascii * nat.

Definition item_text (it : int_item) : list ascii :=
  let '(before, digits, after) := it in
  repeat " "%char before ++ digits ++ repeat " "%char after.

Definition item_value (it : int_item) : value :=
  let '(_, digits, _) := it in VInt (Num.digits_value digits).

(** At least one digit, digits only, and no more of them than [int]
    accepts. *)
Definition well_formed_item (it : int_item) : bool :=
  let '(_, digits, _) := it in
  (negb (Nat.eqb (List.length digits) 0)
   && forallb Char.is_ascii_digit digits
   && Nat.leb (List.length digits) Num.int_max_str_digits)%bool.

(** The items after the first, each behind its comma, and the closing
    bracket. *)
Fixpoint items_tail (items : list int_item) : list ascii :=
  match items with
  | [] => ["]"%char]
  | it :: items' => ","%char :: item_text it ++ items_tail items'
  end.

(** The text of a list of integers, [[i1,i2,...]]. *)
Definition int_list_text (first : int_item) (others : list int_item)
    : list ascii :=
  "["%char :: item_text first ++ items_tail others.

(** A node of an object with a string value, and the spaces behind its
    semicolon. *)
Definition obj_entry : Type := list ascii * list piece * nat.

Definition entry_text (e : obj_entry) : list ascii :=
  let '(key, body, gap) := e in
  string_node_text key body ++ repeat " "%char gap.

Definition entry_node (e : obj_entry) : BONNode :=
  let '(key, body, _) := e in string_node key body.

Definition well_formed_entry (e : obj_entry) : bool :=
  let '(key, body, _) := e in well_formed_string_node key body.

(** The text of an object, [{n1 n2 ...}]. *)
Definition object_text (first : obj_entry) (others : list obj_entry)
    : list ascii :=
  "{"%char :: entry_text first ++ flat_map entry_text others ++ ["}"%char].






(** A call that returns leaves at most [bound] characters. *)
Definition within (bound : nat) (r : outcome value * TextQueue.t) : Prop :=
  forall v, fst r = Ok v -> (List.length (snd r) <= bound)%nat.

(** A call returns or raises: it does not stop for lack of fuel. *)
Definition returns (r : outcome value * TextQueue.t) : Prop :=
  fst r <> OutOfFuel.

(** What each routine leaves of the queue. *)
Definition lengths_at (fuel : nat) : Prop :=
  (forall q, within (List.length q) (BONParser.parse_value_fuel fuel q))
  /\ (forall q, BONParser.classify false false q = bon_node ->
                within (pred (List.length q)) (BONParser.parse_value_fuel fuel q))
  /\ (forall q new_list start_found,
         within (pred (List.length q))
           (BONParser.parse_list_loop fuel new_list start_found q))
  /\ (forall q buffer key val,
         within (pred (List.length q))
           (BONParser.parse_node_loop fuel buffer key val q))
  /\ (forall q nodes start_found,
         within (pred (List.length q))
           (BONParser.parse_object_loop fuel nodes start_found q)).

(** Fuel from which each routine returns or raises. *)
Definition enough_at (fuel : nat) : Prop :=
  (forall q, (4 * List.length q + 4 <= fuel)%nat ->
             returns (BONParser.parse_value_fuel fuel q))
  /\ (forall q, BONParser.classify false false q = bon_node ->
                (4 * List.length q + 2 <= fuel)%nat ->
                returns (BONParser.parse_value_fuel fuel q))
  /\ (forall q new_list start_found,
         (4 * List.length q + 1 <= fuel)%nat ->
         returns (BONParser.parse_list_loop fuel new_list start_found q))
  /\ (forall q buffer key val,
         (4 * List.length q + 1 <= fuel)%nat ->
         returns (BONParser.parse_node_loop fuel buffer key val q))
  /\ (forall q nodes start_found,
         (4 * List.length q + 3 <= fuel)%nat ->
         returns (BONParser.parse_object_loop fuel nodes start_found q)).

(** More fuel does not change a call that returned. *)
Definition stable_at (fuel : nat) : Prop :=
  (forall q, returns (BONParser.parse_value_fuel fuel q) ->
             BONParser.parse_value_fuel (S fuel) q = BONParser.parse_value_fuel fuel q)
  /\ (forall q new_list start_found,
         returns (BONParser.parse_list_loop fuel new_list start_found q) ->
         BONParser.parse_list_loop (S fuel) new_list start_found q
         = BONParser.parse_list_loop fuel new_list start_found q)
  /\ (forall q buffer key val,
         returns (BONParser.parse_node_loop fuel buffer key val q) ->
         BONParser.parse_node_loop (S fuel) buffer key val q
         = BONParser.parse_node_loop fuel buffer key val q)
  /\ (forall q nodes start_found,
         returns (BONParser.parse_object_loop fuel nodes start_found q) ->
         BONParser.parse_object_loop (S fuel) nodes start_found q
         = BONParser.parse_object_loop fuel nodes start_found q).

(* ================================================================= *)
(** * Properties *)

(** ** The builtins on sample literals *)

Example py_int_1 : Num.py_int " 12 " = Some 12.
Proof. reflexivity. Qed.
Example py_int_2 : Num.py_int "1 2" = None.
Proof. reflexivity. Qed.
Example py_int_3 : Num.py_int "" = None.
Proof. reflexivity. Qed.
Example py_int_4 : Num.py_int "-1_000" = Some (-1000).
Proof. reflexivity. Qed.
Example py_float_1 : Num.py_float "4.5" = Some (FFinite false (9 # 2)).
Proof. reflexivity. Qed.
Example py_float_2 : Num.py_float "2e-5" = Some (FFinite false (1 # 50000)).
Proof. reflexivity. Qed.
Example py_float_3 : Num.py_float "1." = Some (FFinite false 1).
Proof. reflexivity. Qed.
Example py_float_4 : Num.py_float "." = None.
Proof. reflexivity. Qed.
Example py_float_5 : Num.py_float "1e" = None.
Proof. reflexivity. Qed.
Example py_float_6 : Num.py_float "-Inf" = Some (FInf true).
Proof. reflexivity. Qed.

Lemma BONType_eqb_eq (a b : BONType) : BONType_eqb a b = true <-> a = b.
Proof. destruct a, b; simpl; split; congruence. Qed.

(** ** The queue *)

Module TextQueueFacts.
Import TextQueue.

Lemma len_length (q : t) : len q = List.length q.
Proof. unfold len, deque. apply length_rev. Qed.

Lemma is_empty_nil (q : t) : is_empty q = true <-> q = [].
Proof.
  unfold is_empty. rewrite len_length, Nat.eqb_eq.
  destruct q; simpl; split; congruence.
Qed.

Lemma peek_nth_error (index : nat) (q : t) : peek index q = nth_error q index.
Proof.
  unfold peek. rewrite len_length. unfold deque.
  destruct (Nat.ltb index (List.length q)) eqn:E.
  - apply Nat.ltb_lt in E.
    rewrite nth_error_rev.
    rewrite (proj2 (Nat.ltb_lt _ _)) by lia.
    f_equal. lia.
  - apply Nat.ltb_ge in E. symmetry. now apply nth_error_None.
Qed.

Lemma push_snoc (c : ascii) (q : t) : push c q = q ++ [c].
Proof. unfold push, of_deque, deque. simpl. now rewrite rev_involutive. Qed.

Lemma pop_deque (q q' : t) (c : ascii) :
  pop q = Some (c, q') -> deque q = deque q' ++ [c].
Proof. destruct q; [discriminate|]. now intros [= <- <-]. Qed.

Lemma init_id (data : list ascii) : init data = data.
Proof.
  unfold init. change data with ([] ++ data) at 2.
  generalize (@nil ascii). induction data as [|c data IH]; intros acc; simpl.
  - now rewrite app_nil_r.
  - rewrite IH, push_snoc, <- app_assoc. reflexivity.
Qed.

Lemma iter_all (q : t) : iter q = map Some q.
Proof.
  unfold iter. rewrite len_length.
  apply nth_error_ext. intros n.
  rewrite !nth_error_map.
  destruct (Nat.lt_ge_cases n (List.length q)) as [H|H].
  - rewrite nth_error_seq, (proj2 (Nat.ltb_lt _ _) H). simpl.
    rewrite peek_nth_error. destruct (nth_error q n) eqn:E; [reflexivity|].
    apply nth_error_None in E. lia.
  - rewrite (proj2 (nth_error_None q n)) by lia.
    rewrite (proj2 (nth_error_None (seq 0 (List.length q)) n)); [reflexivity|].
    rewrite length_seq. lia.
Qed.

Lemma join_all (l : list ascii) : join (map Some l) = Some l.
Proof. induction l as [|c l IH]; simpl; [reflexivity|now rewrite IH]. Qed.

Lemma str_all (q : t) : str q = Some (Str.of_chars q).
Proof. unfold str. now rewrite iter_all, join_all. Qed.

End TextQueueFacts.

Lemma buffer_chars_eq {A : Type} (buffer : TextQueue.t)
    (k : list ascii -> outcome A) : buffer_chars buffer k = k buffer.
Proof. unfold buffer_chars. now rewrite TextQueueFacts.iter_all, TextQueueFacts.join_all. Qed.

(** [k == item] for a key [k], which is a [str] or [None]. *)
Lemma PyEq_eqb_key (k : option string) (item : value) :
  PyEq.eqb (key_value k) item = true <-> item = key_value k.
Proof.
  destruct k as [s|], item; simpl; split; try congruence.
  - intros H. apply String.eqb_eq in H. now subst.
  - intros H. inversion H. apply String.eqb_refl.
Qed.

(* ================================================================= *)
(** ** The classifier *)

Section Classifier.
Import BONParser.

(** Every turn of the classifier's loop hands the queue on as it got it. *)
Lemma determine_type_loop_queue (xs : list nat) :
  forall (is_escaped alpha_found : bool) (q : TextQueue.t),
    snd (determine_type_loop xs is_escaped alpha_found q) = q.
Proof.
  induction xs as [|x xs IH]; intros e a q; [reflexivity|].
  cbn [determine_type_loop]. unfold bind, text_peek.
  destruct (TextQueue.peek x q) as [c|].
  - destruct (negb e); [|apply IH].
    destruct (opening_map c); [reflexivity|].
    destruct (Char.isalpha c && negb a)%bool; [apply IH|].
    destruct (Char.isdigit c && negb a)%bool; [reflexivity|apply IH].
  - destruct (negb e); [reflexivity|apply IH].
Qed.

(** The loop over the positions [i, i+1, ...] of the queue computes
    [classify] on the characters from position [i] on. *)
Lemma determine_type_loop_classify (s : list ascii) :
  forall (pre : list ascii) (is_escaped alpha_found : bool),
    determine_type_loop (seq (List.length pre) (List.length s))
      is_escaped alpha_found (pre ++ s)
    = (Ok (classify is_escaped alpha_found s), pre ++ s).
Proof.
  induction s as [|c s IH]; intros pre e a; [reflexivity|].
  assert (Hnext : forall e' a',
    determine_type_loop (seq (S (List.length pre)) (List.length s)) e' a'
      (pre ++ c :: s) = (Ok (classify e' a' s), pre ++ c :: s)).
  { intros e' a'. specialize (IH (pre ++ [c]) e' a').
    rewrite length_app, Nat.add_1_r, <- app_assoc in IH. exact IH. }
  cbn [List.length seq determine_type_loop classify].
  unfold bind, text_peek.
  rewrite TextQueueFacts.peek_nth_error, nth_error_app2 by lia.
  rewrite Nat.sub_diag. cbn [nth_error].
  destruct (negb e); [|apply Hnext].
  destruct (opening_map c); [reflexivity|].
  destruct (Char.isalpha c && negb a)%bool; [apply Hnext|].
  destruct (Char.isdigit c && negb a)%bool; [reflexivity|apply Hnext].
Qed.

Lemma determine_type_classify (q : TextQueue.t) :
  determine_type q = (Ok (classify false false q), q).
Proof.
  unfold determine_type, bind, text_len.
  rewrite TextQueueFacts.len_length.
  exact (determine_type_loop_classify q [] false false).
Qed.

(** C8: for every state of the character queue, [determine_type] leaves
    the queue exactly as it found it, whatever kind it returns. *)
Theorem determine_type_preserves_queue (q : TextQueue.t) :
  snd (determine_type q) = q
  /\ exists kind : BONType, fst (determine_type q) = Ok kind.
Proof.
  split.
  - unfold determine_type, bind, text_len.
    apply determine_type_loop_queue.
  - rewrite determine_type_classify. now eexists.
Qed.

End Classifier.

(* ================================================================= *)
(** ** The document model *)

Section Document.

Lemma contains_loop_spec (nodes : list BONNode) (item : value) :
  contains_loop nodes item = true
  <-> exists n, In n nodes /\ key_value (node_key n) = item.
Proof.
  induction nodes as [|n nodes IH]; simpl.
  - split; [discriminate|intros (n & [] & _)].
  - destruct (PyEq.eqb (key_value (node_key n)) item) eqn:E.
    + apply PyEq_eqb_key in E. split; [|reflexivity].
      intros _. exists n. now split; [left|].
    + rewrite IH. split.
      * intros (m & Hm & Hk). exists m. now split; [right|].
      * intros (m & [->|Hm] & Hk).
        -- assert (PyEq.eqb (key_value (node_key m)) item = true)
             by now apply PyEq_eqb_key.
           congruence.
        -- now exists m.
Qed.

(** C4, as the code has it: the membership test of an object answers
    [True] exactly when some node of the object has its key equal to the
    item; the values of the nodes are not looked at. *)
Theorem BONObject_contains_by_key (o : BONObject) (item : value) :
  BONObject_contains o item = true
  <-> exists n, In n (obj_nodes o) /\ key_value (node_key n) = item.
Proof. apply contains_loop_spec. Qed.

(** C4 fails as stated: the object with the single node [a: "x"] has a
    node whose value equals the string ["x"], and the membership test on
    ["x"] answers [False]. *)
Lemma BONObject_contains_ignores_values :
  (exists n,
      In n (obj_nodes (mkBONObject [mkBONNode (Some "a") (VStr "x")]))
      /\ (PyEq.eqb (key_value (node_key n)) (VStr "x") = true
          \/ PyEq.eqb (node_value n) (VStr "x") = true))
  /\ BONObject_contains (mkBONObject [mkBONNode (Some "a") (VStr "x")])
       (VStr "x") = false.
Proof.
  split; [|reflexivity].
  eexists. split; [left; reflexivity|]. right. reflexivity.
Qed.

(** The index [__delitem__] ends with is the position of the last node
    with the key, counted from [loop_index]. *)
Lemma delitem_scan_app (l1 l2 : list BONNode) (key : value) :
  forall (i : nat) (index : option nat),
    delitem_scan i (l1 ++ l2) key index
    = delitem_scan (i + List.length l1) l2 key (delitem_scan i l1 key index).
Proof.
  induction l1 as [|n l1 IH]; intros i index; simpl.
  - now rewrite Nat.add_0_r.
  - rewrite IH. f_equal. lia.
Qed.

Lemma delitem_scan_no_match (l : list BONNode) (key : value) :
  (forall n, In n l -> key_value (node_key n) <> key) ->
  forall (i : nat) (index : option nat), delitem_scan i l key index = index.
Proof.
  induction l as [|n l IH]; intros H i index; simpl; [reflexivity|].
  rewrite IH by (intros m Hm; apply H; now right).
  destruct (PyEq.eqb (key_value (node_key n)) key) eqn:E; [|reflexivity].
  apply PyEq_eqb_key in E. exfalso. apply (H n); [now left|congruence].
Qed.

(** C3 on the code: removing the key of the only node of an object, which
    sits at position 0, raises KeyError and removes nothing. *)
Theorem BONObject_delitem_first_node :
  BONObject_delitem (mkBONObject [mkBONNode (Some "a") (VInt 1)]) (VStr "a")
  = Raise KeyError.
Proof. reflexivity. Qed.

(** The general shape of that failure: when the only node with the key
    is the first one, the removal raises KeyError. *)
Lemma BONObject_delitem_leading (n : BONNode) (rest : list BONNode) :
  (forall m, In m rest -> key_value (node_key m) <> key_value (node_key n)) ->
  BONObject_delitem (mkBONObject (n :: rest)) (key_value (node_key n))
  = Raise KeyError.
Proof.
  intros H. unfold BONObject_delitem. simpl.
  rewrite (proj2 (PyEq_eqb_key _ _) eq_refl).
  now rewrite delitem_scan_no_match.
Qed.

(** When the last node with the key is at a position other than 0, that
    node is removed. *)
Lemma BONObject_delitem_later (l1 l2 : list BONNode) (n : BONNode) :
  l1 <> [] ->
  (forall m, In m l2 -> key_value (node_key m) <> key_value (node_key n)) ->
  BONObject_delitem (mkBONObject (l1 ++ n :: l2)) (key_value (node_key n))
  = Ok (mkBONObject (l1 ++ l2)).
Proof.
  intros Hne H. unfold BONObject_delitem. simpl.
  rewrite delitem_scan_app. simpl.
  rewrite (proj2 (PyEq_eqb_key _ _) eq_refl).
  rewrite delitem_scan_no_match by exact H.
  destruct l1 as [|x l1]; [congruence|]. simpl.
  do 3 f_equal. clear. induction l1 as [|y l1 IH]; simpl; [reflexivity|].
  now f_equal.
Qed.





End Document.

(* ================================================================= *)
(** ** One turn of each loop *)

Section Turns.
Import BONParser.

Lemma is_empty_cons (c : ascii) (q : TextQueue.t) :
  TextQueue.is_empty (c :: q) = false.
Proof.
  apply not_true_iff_false. intros E.
  apply TextQueueFacts.is_empty_nil in E. discriminate.
Qed.

Lemma peek_cons (c : ascii) (q : TextQueue.t) :
  TextQueue.peek 0 (c :: q) = Some c.
Proof. now rewrite TextQueueFacts.peek_nth_error. Qed.

Lemma parse_value_fuel_S (fuel : nat) (q : TextQueue.t) :
  parse_value_fuel (S fuel) q =
  match classify false false q with
  | number => parse_number q
  | string_t => parse_string q
  | bon_node => parse_node_loop fuel [] None VNone q
  | bon_list => parse_list_loop fuel [] false q
  | bon_object => parse_object_loop fuel [] false q
  | invalid => (Raise KeyError, q)
  end.
Proof.
  cbn [parse_value_fuel]. unfold bind.
  rewrite determine_type_classify.
  now destruct (classify false false q).
Qed.

Lemma parse_list_loop_nil (fuel : nat) (new_list : list value)
    (start_found : bool) :
  parse_list_loop (S fuel) new_list start_found [] = (Ok VNone, []).
Proof. reflexivity. Qed.

Lemma parse_list_loop_cons (fuel : nat) (new_list : list value)
    (start_found : bool) (c : ascii) (q : TextQueue.t) :
  parse_list_loop (S fuel) new_list start_found (c :: q) =
  let start_found' :=
    if (negb start_found && Ascii.eqb c "[")%bool
    then true else start_found in
  if start_found' then
    if (Ascii.eqb c "," || Ascii.eqb c "[")%bool then
      (v <- parse_value_fuel fuel ;;
       parse_list_loop fuel (new_list ++ [v]) start_found') q
    else if Ascii.eqb c "]" then (Ok (VList new_list), q)
    else if negb (Ascii.eqb c " ") then
      (Raise (Exception "Malformed list provided"), q)
    else parse_list_loop fuel new_list start_found' q
  else parse_list_loop fuel new_list start_found' q.
Proof.
  cbn [parse_list_loop]. unfold bind at 1, text_is_empty.
  rewrite is_empty_cons. unfold bind at 1. cbn [text_pop TextQueue.pop].
  cbv zeta.
  destruct (if (negb start_found && Ascii.eqb c "[")%bool
            then true else start_found); [|reflexivity].
  destruct (Ascii.eqb c "," || Ascii.eqb c "[")%bool; [reflexivity|].
  destruct (Ascii.eqb c "]"); [reflexivity|].
  destruct (negb (Ascii.eqb c " ")); reflexivity.
Qed.

Lemma parse_node_loop_nil (fuel : nat) (buffer : TextQueue.t)
    (key : option string) (val : value) :
  parse_node_loop (S fuel) buffer key val []
  = (Raise (Exception missing_semicolon), []).
Proof. reflexivity. Qed.

Lemma parse_node_loop_cons (fuel : nat) (buffer : TextQueue.t)
    (key : option string) (val : value) (c : ascii) (q : TextQueue.t) :
  parse_node_loop (S fuel) buffer key val (c :: q) =
  if Ascii.eqb c ":" then
    (v <- parse_value_fuel fuel ;;
     parse_node_loop fuel buffer
       (Some (Str.of_chars (Str.lstrip (Str.strip buffer)))) v) q
  else if Ascii.eqb c ";" then (Ok (VNode (mkBONNode key val)), q)
  else if (negb (Ascii.eqb c " ")
           && match key with None => true | Some _ => false end)%bool
  then parse_node_loop fuel (TextQueue.push c buffer) key val q
  else parse_node_loop fuel buffer key val q.
Proof.
  cbn [parse_node_loop]. unfold bind at 1, text_is_empty.
  rewrite is_empty_cons. unfold bind at 1. cbn [text_pop TextQueue.pop].
  destruct (Ascii.eqb c ":").
  - unfold bind at 1, lift. now rewrite buffer_chars_eq.
  - destruct (Ascii.eqb c ";"); [reflexivity|].
    destruct (negb (Ascii.eqb c " ")
              && match key with None => true | Some _ => false end)%bool;
      reflexivity.
Qed.

Lemma parse_object_loop_nil (fuel : nat) (nodes : list BONNode)
    (start_found : bool) :
  parse_object_loop (S fuel) nodes start_found [] =
  (Raise (Exception (if negb start_found then missing_open_brace
                     else missing_close_brace)), []).
Proof. now destruct start_found. Qed.

Lemma parse_object_loop_cons (fuel : nat) (nodes : list BONNode)
    (start_found : bool) (c : ascii) (q : TextQueue.t) :
  parse_object_loop (S fuel) nodes start_found (c :: q) =
  if Ascii.eqb c "{" then
    if negb (BONType_eqb (classify false false q) bon_node)
    then (Raise TypeError, q)
    else (v <- parse_value_fuel fuel ;;
          append_node nodes v (fun nodes' =>
            parse_object_loop fuel nodes' true)) q
  else if Ascii.eqb c "}" then (Ok (VObject (mkBONObject nodes)), q)
  else if (start_found && negb (Ascii.eqb c " "))%bool then
    if negb (BONType_eqb (classify false false (c :: q)) bon_node)
    then (Raise TypeError, c :: q)
    else (v <- parse_value_fuel fuel ;;
          append_node nodes v (fun nodes' =>
            parse_object_loop fuel nodes' start_found)) (c :: q)
  else parse_object_loop fuel nodes start_found q.
Proof.
  cbn [parse_object_loop]. unfold bind at 1, text_is_empty.
  rewrite is_empty_cons. unfold bind at 1, text_peek.
  rewrite peek_cons.
  destruct (Ascii.eqb c "{").
  - unfold bind at 1. cbn [text_pop TextQueue.pop].
    unfold bind at 1. rewrite determine_type_classify.
    now destruct (negb (BONType_eqb (classify false false q) bon_node)).
  - destruct (Ascii.eqb c "}").
    + reflexivity.
    + destruct (start_found && negb (Ascii.eqb c " "))%bool.
      * unfold bind at 1. rewrite determine_type_classify.
        now destruct (negb (BONType_eqb (classify false false (c :: q))
                              bon_node)).
      * reflexivity.
Qed.

End Turns.

(* ================================================================= *)
(** ** The routines consume the queue and return *)

Section Termination.
Import BONParser.

Lemma within_le (b b' : nat) (r : outcome value * TextQueue.t) :
  within b r -> (b <= b')%nat -> within b' r.
Proof. unfold within. intros H Hb v Hr. specialize (H v Hr). lia. Qed.

Lemma number_loop_length (q : TextQueue.t) :
  forall buffer,
    (List.length (snd (number_loop buffer q)) <= List.length q)%nat.
Proof.
  induction q as [|c q IH]; intros buffer; simpl; [lia|].
  destruct (Str.mem c float_digits || Ascii.eqb c " ")%bool; simpl.
  - specialize (IH (TextQueue.push c buffer)). lia.
  - lia.
Qed.

Lemma parse_number_length (q : TextQueue.t) :
  (List.length (snd (parse_number q)) <= List.length q)%nat.
Proof.
  unfold parse_number. pose proof (number_loop_length q []) as H.
  destruct (number_loop [] q). exact H.
Qed.

Lemma string_loop_length (q : TextQueue.t) :
  forall buffer start_found is_escaped,
    (List.length (snd (string_loop buffer start_found is_escaped q))
     <= List.length q)%nat.
Proof.
  induction q as [|c q IH]; intros buffer sf e; simpl; [lia|].
  destruct (sf && negb e && is_quote c)%bool; simpl; [lia|].
  destruct (sf && negb (invalid_chars c))%bool.
  - match goal with |- context [string_loop ?b ?s ?x q] =>
      specialize (IH b s x) end. lia.
  - destruct (is_quote c);
      match goal with |- context [string_loop ?b ?s ?x q] =>
        specialize (IH b s x) end; lia.
Qed.

Lemma within_bind (b b1 : nat) (m : M value) (k : value -> M value)
    (q : TextQueue.t) :
  within b1 (m q) ->
  (forall v q1, (List.length q1 <= b1)%nat -> within b (k v q1)) ->
  within b (bind m k q).
Proof.
  unfold within, bind. intros Hm Hk.
  destruct (m q) as [[v|e|] q1]; cbn [fst snd] in *; try discriminate.
  apply Hk. now apply (Hm v).
Qed.

Ltac within_now :=
  unfold within; cbn [fst snd List.length pred]; intros;
  first [discriminate | lia].

Lemma within_append_node (b : nat) (nodes : list BONNode) (v : value)
    (k : list BONNode -> M value) (q : TextQueue.t) :
  (forall nodes', within b (k nodes' q)) ->
  within b (append_node nodes v k q).
Proof.
  intros Hk. destruct v; cbn [append_node]; try within_now. apply Hk.
Qed.

Lemma lengths (fuel : nat) : lengths_at fuel.
Proof.
  induction fuel as [|fuel (IHv & IHvn & IHl & IHn & IHo)].
  - repeat split; intros; within_now.
  - assert (Hl : forall q new_list start_found,
               within (pred (List.length q))
                 (parse_list_loop (S fuel) new_list start_found q)).
    { intros [|c q] nl sf; [rewrite parse_list_loop_nil; within_now|].
      rewrite parse_list_loop_cons. cbv zeta. cbn [List.length pred].
      assert (Hrec : forall nl' sf' q1,
                 (List.length q1 <= List.length q)%nat ->
                 within (List.length q) (parse_list_loop fuel nl' sf' q1)).
      { intros. eapply within_le; [apply IHl|lia]. }
      destruct (if (negb sf && Ascii.eqb c "[")%bool then true else sf);
        [|now apply Hrec].
      destruct (Ascii.eqb c "," || Ascii.eqb c "[")%bool.
      - eapply within_bind; [apply IHv|]. intros. now apply Hrec.
      - destruct (Ascii.eqb c "]"); [within_now|].
        destruct (negb (Ascii.eqb c " ")); [within_now|].
        now apply Hrec. }
    assert (Hn : forall q buffer key val,
               within (pred (List.length q))
                 (parse_node_loop (S fuel) buffer key val q)).
    { intros [|c q] buffer key val; [rewrite parse_node_loop_nil; within_now|].
      rewrite parse_node_loop_cons. cbn [List.length pred].
      assert (Hrec : forall b' k' v' q1,
                 (List.length q1 <= List.length q)%nat ->
                 within (List.length q) (parse_node_loop fuel b' k' v' q1)).
      { intros. eapply within_le; [apply IHn|lia]. }
      destruct (Ascii.eqb c ":").
      - eapply within_bind; [apply IHv|]. intros. now apply Hrec.
      - destruct (Ascii.eqb c ";"); [within_now|].
        destruct (negb (Ascii.eqb c " ")
                  && match key with None => true | Some _ => false end)%bool;
          now apply Hrec. }
    assert (Ho : forall q nodes start_found,
               within (pred (List.length q))
                 (parse_object_loop (S fuel) nodes start_found q)).
    { intros [|c q] nodes sf.
      - rewrite parse_object_loop_nil. within_now.
      - rewrite parse_object_loop_cons. cbn [List.length pred].
        assert (Hrec : forall n' sf' q1,
                   (List.length q1 <= List.length q)%nat ->
                   within (List.length q) (parse_object_loop fuel n' sf' q1)).
        { intros. eapply within_le; [apply IHo|lia]. }
        destruct (Ascii.eqb c "{").
        + destruct (negb (BONType_eqb (classify false false q) bon_node));
            [within_now|].
          eapply within_bind; [apply IHv|].
          intros v q1 Hq1. apply within_append_node.
          intros. now apply Hrec.
        + destruct (Ascii.eqb c "}"); [within_now|].
          destruct (sf && negb (Ascii.eqb c " "))%bool; [|now apply Hrec].
          destruct (BONType_eqb (classify false false (c :: q)) bon_node)
            eqn:E; cbn [negb]; [|within_now].
          apply BONType_eqb_eq in E.
          eapply within_bind; [apply (IHvn _ E)|].
          cbn [List.length pred].
          intros v q1 Hq1. apply within_append_node.
          intros. now apply Hrec. }
    assert (Hdispatch : forall q,
               within (List.length q) (parse_value_fuel (S fuel) q)
               /\ (classify false false q = bon_node ->
                   within (pred (List.length q))
                     (parse_value_fuel (S fuel) q))).
    { intros q. rewrite parse_value_fuel_S. split.
      - destruct (classify false false q).
        + intros v _. apply string_loop_length.
        + intros v _. apply parse_number_length.
        + eapply within_le; [apply IHo|lia].
        + eapply within_le; [apply IHl|lia].
        + eapply within_le; [apply IHn|lia].
        + within_now.
      - intros ->. apply IHn. }
    repeat split; solve [apply Hdispatch | apply Hl | apply Hn | apply Ho].
Qed.

Lemma returns_bind (b1 : nat) (m : M value) (k : value -> M value)
    (q : TextQueue.t) :
  within b1 (m q) ->
  returns (m q) ->
  (forall v q1, (List.length q1 <= b1)%nat -> returns (k v q1)) ->
  returns (bind m k q).
Proof.
  unfold within, returns, bind. intros Hw Hm Hk.
  destruct (m q) as [[v|e|] q1]; cbn [fst snd] in *;
    [|discriminate|congruence].
  apply Hk. now apply (Hw v).
Qed.

Ltac returns_now := unfold returns; cbn [fst]; discriminate.

Lemma returns_append_node (nodes : list BONNode) (v : value)
    (k : list BONNode -> M value) (q : TextQueue.t) :
  (forall nodes', returns (k nodes' q)) ->
  returns (append_node nodes v k q).
Proof.
  intros Hk. destruct v; cbn [append_node]; try returns_now. apply Hk.
Qed.

Lemma parse_number_returns (q : TextQueue.t) : returns (parse_number q).
Proof.
  unfold returns, parse_number. destruct (number_loop [] q) as [b q'].
  cbn [fst]. unfold number_of_buffer. rewrite buffer_chars_eq.
  destruct (forallb _ b).
  - destruct (Num.py_int _); discriminate.
  - unfold parse_float.
    repeat match goal with
           | |- context [if ?c then _ else _] => destruct c
           | |- context [match Num.py_float ?x with _ => _ end] =>
               destruct (Num.py_float x)
           end; discriminate.
Qed.

Lemma string_loop_returns (q : TextQueue.t) :
  forall buffer start_found is_escaped,
    returns (string_loop buffer start_found is_escaped q).
Proof.
  induction q as [|c q IH]; intros buffer sf e; cbn [string_loop];
    [returns_now|].
  destruct (sf && negb e && is_quote c)%bool.
  - rewrite buffer_chars_eq. returns_now.
  - destruct (sf && negb (invalid_chars c))%bool; [apply IH|].
    destruct (is_quote c); apply IH.
Qed.

Lemma enough (fuel : nat) : enough_at fuel.
Proof.
  induction fuel as [|fuel (IHv & IHvn & IHl & IHn & IHo)].
  - repeat split; intros; lia.
  - pose proof (lengths fuel) as (Lv & Lvn & _).
    repeat split.
    + intros q Hf. rewrite parse_value_fuel_S.
      destruct (classify false false q).
      * apply string_loop_returns.
      * apply parse_number_returns.
      * apply IHo. lia.
      * apply IHl. lia.
      * apply IHn. lia.
      * returns_now.
    + intros q E Hf. rewrite parse_value_fuel_S, E. apply IHn. lia.
    + intros [|c q] nl sf Hf;
        [rewrite parse_list_loop_nil; returns_now|].
      rewrite parse_list_loop_cons. cbv zeta. cbn [List.length] in Hf.
      destruct (if (negb sf && Ascii.eqb c "[")%bool then true else sf);
        [|apply IHl; lia].
      destruct (Ascii.eqb c "," || Ascii.eqb c "[")%bool.
      * eapply returns_bind; [apply Lv|apply IHv; lia|].
        intros v q1 Hq1. apply IHl. lia.
      * destruct (Ascii.eqb c "]"); [returns_now|].
        destruct (negb (Ascii.eqb c " ")); [returns_now|].
        apply IHl. lia.
    + intros [|c q] buffer key val Hf;
        [rewrite parse_node_loop_nil; returns_now|].
      rewrite parse_node_loop_cons. cbn [List.length] in Hf.
      destruct (Ascii.eqb c ":").
      * eapply returns_bind; [apply Lv|apply IHv; lia|].
        intros v q1 Hq1. apply IHn. lia.
      * destruct (Ascii.eqb c ";"); [returns_now|].
        destruct (negb (Ascii.eqb c " ")
                  && match key with None => true | Some _ => false end)%bool;
          apply IHn; lia.
    + intros [|c q] nodes sf Hf;
        [rewrite parse_object_loop_nil; returns_now|].
      rewrite parse_object_loop_cons. cbn [List.length] in Hf.
      destruct (Ascii.eqb c "{").
      * destruct (negb (BONType_eqb (classify false false q) bon_node));
          [returns_now|].
        eapply returns_bind; [apply Lv|apply IHv; lia|].
        intros v q1 Hq1. apply returns_append_node.
        intros. apply IHo. lia.
      * destruct (Ascii.eqb c "}"); [returns_now|].
        destruct (sf && negb (Ascii.eqb c " "))%bool; [|apply IHo; lia].
        destruct (BONType_eqb (classify false false (c :: q)) bon_node)
          eqn:E; cbn [negb]; [|returns_now].
        apply BONType_eqb_eq in E.
        eapply returns_bind;
          [apply (Lvn _ E)|apply (IHvn _ E); cbn [List.length]; lia|].
        cbn [List.length pred]. intros v q1 Hq1.
        apply returns_append_node. intros. apply IHo. lia.
Qed.

(** Every routine, run from any queue, returns a value or raises. *)
Theorem parse_value_total (q : TextQueue.t) : returns (parse_value q).
Proof.
  destruct (enough (fuel_for q)) as (Hv & _ & Hl & Hn & Ho).
  apply Hv. unfold fuel_for. lia.
Qed.

Theorem parse_list_total (q : TextQueue.t) : returns (parse_list q).
Proof.
  destruct (enough (fuel_for q)) as (Hv & _ & Hl & Hn & Ho).
  apply Hl. unfold fuel_for. lia.
Qed.

Theorem parse_node_total (q : TextQueue.t) : returns (parse_node q).
Proof.
  destruct (enough (fuel_for q)) as (Hv & _ & Hl & Hn & Ho).
  apply Hn. unfold fuel_for. lia.
Qed.

Theorem parse_object_total (q : TextQueue.t) : returns (parse_object q).
Proof.
  destruct (enough (fuel_for q)) as (Hv & _ & Hl & Hn & Ho).
  apply Ho. unfold fuel_for. lia.
Qed.

Lemma stable_bind (m m' : M value) (k k' : value -> M value)
    (q : TextQueue.t) :
  returns (bind m k q) ->
  (returns (m q) -> m' q = m q) ->
  (forall v q1, returns (k v q1) -> k' v q1 = k v q1) ->
  bind m' k' q = bind m k q.
Proof.
  unfold returns, bind. intros Hr Hm Hk.
  destruct (m q) as [[v|e|] q1] eqn:E; cbn [fst] in *.
  - rewrite Hm by discriminate. now apply Hk.
  - now rewrite Hm by discriminate.
  - congruence.
Qed.

Lemma stable_append_node (nodes : list BONNode) (v : value)
    (k k' : list BONNode -> M value) (q : TextQueue.t) :
  returns (append_node nodes v k q) ->
  (forall nodes', returns (k nodes' q) -> k' nodes' q = k nodes' q) ->
  append_node nodes v k' q = append_node nodes v k q.
Proof. destruct v; cbn [append_node]; auto. Qed.

Lemma stable (fuel : nat) : stable_at fuel.
Proof.
  induction fuel as [|fuel (IHv & IHl & IHn & IHo)].
  - repeat split; intros; exfalso; match goal with H : returns _ |- _ =>
      apply H end; reflexivity.
  - repeat split.
    + intros q. rewrite !parse_value_fuel_S.
      destruct (classify false false q); auto.
    + intros [|c q] nl sf; [reflexivity|].
      rewrite !parse_list_loop_cons. cbv zeta.
      destruct (if (negb sf && Ascii.eqb c "[")%bool then true else sf);
        [|apply IHl].
      destruct (Ascii.eqb c "," || Ascii.eqb c "[")%bool.
      * intros H. apply stable_bind; [exact H|apply IHv|].
        intros. now apply IHl.
      * destruct (Ascii.eqb c "]"); [reflexivity|].
        destruct (negb (Ascii.eqb c " ")); [reflexivity|apply IHl].
    + intros [|c q] buffer key val; [reflexivity|].
      rewrite !parse_node_loop_cons.
      destruct (Ascii.eqb c ":").
      * intros H. apply stable_bind; [exact H|apply IHv|].
        intros. now apply IHn.
      * destruct (Ascii.eqb c ";"); [reflexivity|].
        destruct (negb (Ascii.eqb c " ")
                  && match key with None => true | Some _ => false end)%bool;
          apply IHn.
    + intros [|c q] nodes sf; [reflexivity|].
      rewrite !parse_object_loop_cons.
      destruct (Ascii.eqb c "{").
      * destruct (negb (BONType_eqb (classify false false q) bon_node));
          [reflexivity|].
        intros H. apply stable_bind; [exact H|apply IHv|].
        intros v q1 H1. apply stable_append_node; [exact H1|].
        intros. now apply IHo.
      * destruct (Ascii.eqb c "}"); [reflexivity|].
        destruct (sf && negb (Ascii.eqb c " "))%bool; [|apply IHo].
        destruct (negb (BONType_eqb (classify false false (c :: q)) bon_node));
          [reflexivity|].
        intros H. apply stable_bind; [exact H|apply IHv|].
        intros v q1 H1. apply stable_append_node; [exact H1|].
        intros. now apply IHo.
Qed.

Lemma parse_value_fuel_more (fuel extra : nat) (q : TextQueue.t) :
  returns (parse_value_fuel fuel q) ->
  parse_value_fuel (extra + fuel) q = parse_value_fuel fuel q.
Proof.
  intros H. induction extra as [|extra IH]; [reflexivity|].
  cbn [Nat.add]. destruct (stable (extra + fuel)) as (Hv & _).
  rewrite Hv; rewrite IH; auto.
Qed.

(** The nested calls of the routines run [parse_value] itself: with the
    fuel they are given, or with [fuel_for] of the queue they start from,
    the answer is the same. *)
Lemma parse_value_fuel_parse_value (fuel : nat) (q : TextQueue.t) :
  returns (parse_value_fuel fuel q) ->
  parse_value_fuel fuel q = parse_value q.
Proof.
  intros H. unfold parse_value.
  destruct (Nat.le_ge_cases fuel (fuel_for q)) as [L|L].
  - replace (fuel_for q) with ((fuel_for q - fuel) + fuel)%nat by lia.
    now rewrite parse_value_fuel_more.
  - replace fuel with ((fuel - fuel_for q) + fuel_for q)%nat by lia.
    rewrite parse_value_fuel_more; [reflexivity|].
    apply parse_value_total.
Qed.

(** A node routine that returns, returns a [BONNode]; so the value
    [parse_object] appends after the classifier answered [bon_node] is a
    node. *)
Lemma parse_node_loop_node (fuel : nat) :
  forall buffer key val q v,
    fst (parse_node_loop fuel buffer key val q) = Ok v ->
    exists n, v = VNode n.
Proof.
  induction fuel as [|fuel IH]; intros buffer key val q v;
    [discriminate|].
  destruct q as [|c q]; [discriminate|].
  rewrite parse_node_loop_cons.
  destruct (Ascii.eqb c ":").
  - unfold bind. destruct (parse_value_fuel fuel q) as [[w|e|] q1];
      [apply IH|discriminate|discriminate].
  - destruct (Ascii.eqb c ";").
    + cbn [fst]. intros [= <-]. now eexists.
    + destruct (negb (Ascii.eqb c " ")
                && match key with None => true | Some _ => false end)%bool;
        apply IH.
Qed.

Lemma parse_value_fuel_node (fuel : nat) (q : TextQueue.t) (v : value) :
  classify false false q = bon_node ->
  fst (parse_value_fuel fuel q) = Ok v ->
  exists n, v = VNode n.
Proof.
  intros E. destruct fuel as [|fuel]; [discriminate|].
  rewrite parse_value_fuel_S, E. apply parse_node_loop_node.
Qed.

End Termination.

(* ================================================================= *)
(** ** The parser on the inputs of the specification *)

Section Samples.
Import BONParser.

(** The classifier finds nothing in spaces followed by a closing brace. *)
Lemma classify_spaces_brace (n : nat) (is_escaped alpha_found : bool) :
  classify is_escaped alpha_found (repeat " "%char n ++ ["}"%char]) = invalid.
Proof.
  revert is_escaped. induction n as [|n IH]; intros e.
  - now destruct e.
  - cbn [repeat app classify]. destruct e; cbn; apply IH.
Qed.

(** C1 on the code: on the input [{}], and with any number of spaces
    between the braces, the object routine has consumed the opening brace
    and then demands a node; the closing brace is not consumed and no
    object is returned, the call ends in a TypeError. *)
Theorem parse_object_empty_braces :
  parse_object (init "{}") = (Raise TypeError, ["}"%char])
  /\ parse "{ }" = (Raise TypeError, [" "; "}"]%char)
  /\ forall n : nat,
       parse_object ("{"%char :: repeat " "%char n ++ ["}"%char])
       = (Raise TypeError, repeat " "%char n ++ ["}"%char]).
Proof.
  split; [vm_compute; reflexivity|]. split; [vm_compute; reflexivity|].
  intros n. unfold parse_object, fuel_for. rewrite Nat.add_succ_r.
  rewrite parse_object_loop_cons. change (Ascii.eqb "{" "{") with true.
  cbv iota. now rewrite classify_spaces_brace.
Qed.

(** The same for whatever follows the opening brace, when the classifier
    does not answer [bon_node] on it. *)
Lemma parse_object_loop_open_brace (fuel : nat) (nodes : list BONNode)
    (start_found : bool) (rest : TextQueue.t) :
  classify false false rest <> bon_node ->
  parse_object_loop (S fuel) nodes start_found ("{"%char :: rest)
  = (Raise TypeError, rest).
Proof.
  intros H. rewrite parse_object_loop_cons.
  change (Ascii.eqb "{" "{") with true. cbv iota.
  destruct (classify false false rest); try reflexivity. congruence.
Qed.

(** C7: [{value: "x"}] ends in the error about the missing [;], and
    [{value: "x";] in the error about the missing closing brace. *)
Theorem missing_terminators :
  fst (parse ("{value: " ++ dq ++ "x" ++ dq ++ "}"))
  = Raise (Exception "Expected token ';' not found.")
  /\ fst (parse ("{value: " ++ dq ++ "x" ++ dq ++ ";"))
     = Raise (Exception "Expected token '}' not found").
Proof. split; vm_compute; reflexivity. Qed.

(** A list routine that returns, returns a list, or [None] with the queue
    used up. *)
Lemma parse_list_loop_result (fuel : nat) :
  forall new_list start_found q v q',
    parse_list_loop fuel new_list start_found q = (Ok v, q') ->
    (exists items, v = VList items) \/ (v = VNone /\ q' = []).
Proof.
  induction fuel as [|fuel IH]; intros nl sf q v q'; [discriminate|].
  destruct q as [|c q].
  - rewrite parse_list_loop_nil. intros [= <- <-]. now right.
  - rewrite parse_list_loop_cons. cbv zeta.
    destruct (if (negb sf && Ascii.eqb c "[")%bool then true else sf);
      [|apply IH].
    destruct (Ascii.eqb c "," || Ascii.eqb c "[")%bool.
    + unfold bind. destruct (parse_value_fuel fuel q) as [[w|e|] q1];
        [apply IH|discriminate|discriminate].
    + destruct (Ascii.eqb c "]"); [intros [= <- <-]; left; now eexists|].
      destruct (negb (Ascii.eqb c " ")); [discriminate|apply IH].
Qed.

End Samples.

(* ================================================================= *)
(** ** Strings *)

Section Strings.
Import BONParser.

Lemma quote_not_backslash (c : ascii) :
  is_quote c = true -> Ascii.eqb c Char.backslash = false.
Proof.
  unfold is_quote. intros H. apply orb_true_iff in H.
  destruct H as [H|H]; apply Ascii.eqb_eq in H; now subst.
Qed.

Lemma invalid_not_quote (c : ascii) :
  invalid_chars c = true -> is_quote c = false.
Proof.
  unfold invalid_chars. intros H. apply orb_true_iff in H.
  destruct H as [H|H]; apply Ascii.eqb_eq in H; now subst.
Qed.

(** Before the opening quote every character is dropped. *)
Lemma string_loop_open (pre : list ascii) :
  forall (is_escaped : bool) (open : ascii) (rest : TextQueue.t),
    forallb (fun c => negb (is_quote c)) pre = true ->
    is_quote open = true ->
    string_loop [] false is_escaped (pre ++ open :: rest)
    = string_loop [] true false rest.
Proof.
  induction pre as [|c pre IH]; intros e open rest Hpre Hopen.
  - cbn [app string_loop andb]. rewrite Hopen.
    unfold next_escaped. now rewrite (quote_not_backslash _ Hopen).
  - cbn [forallb] in Hpre. apply andb_true_iff in Hpre as [Hc Hpre].
    apply negb_true_iff in Hc.
    cbn [app string_loop andb]. rewrite Hc. now apply IH.
Qed.

(** After it, the pieces are appended until an unescaped quote. *)
Lemma string_loop_body (body : list piece) :
  forall (buffer : TextQueue.t) (close : ascii) (rest : TextQueue.t),
    forallb well_formed_piece body = true ->
    is_quote close = true ->
    string_loop buffer true false (flat_map written body ++ close :: rest)
    = (Ok (VStr (Str.of_chars (buffer ++ flat_map meant body))), rest).
Proof.
  induction body as [|p body IH]; intros buffer close rest Hbody Hclose.
  - cbn [flat_map app string_loop andb negb]. rewrite Hclose.
    now rewrite buffer_chars_eq, app_nil_r.
  - cbn [forallb] in Hbody. apply andb_true_iff in Hbody as [Hp Hbody].
    cbn [flat_map]. rewrite <- !app_assoc.
    destruct p as [c|c]; unfold meant; cbv zeta;
      cbn [written app string_loop andb negb].
    + cbn [well_formed_piece] in Hp. apply andb_true_iff in Hp as [Hq Hb].
      apply negb_true_iff in Hq, Hb. rewrite Hq.
      unfold next_escaped. rewrite Hb. cbn [negb orb andb].
      destruct (invalid_chars c); cbn [negb app].
      * now apply IH.
      * rewrite TextQueueFacts.push_snoc, IH by assumption.
        now rewrite <- app_assoc.
    + change (is_quote Char.backslash) with false.
      change (invalid_chars Char.backslash) with false.
      unfold next_escaped.
      change (Ascii.eqb Char.backslash Char.backslash) with true.
      cbn [negb orb andb]. rewrite andb_false_r.
      destruct (invalid_chars c) eqn:Hi; cbn [negb app].
      * rewrite (invalid_not_quote _ Hi). now apply IH.
      * rewrite orb_true_r.
        rewrite TextQueueFacts.push_snoc, IH by assumption.
        now rewrite <- app_assoc.
Qed.

(** C6: after the opening quote the string routine returns at the first
    unescaped quote, whichever of the two quote characters opened the
    string and whichever closes it; an escaped character, a quote
    included, is part of the result; and the input of the specification,
    the node [value] whose string holds an escaped double quote between
    [a] and [b], gives the node whose value is [a], the double quote,
    [b]. *)
Theorem parse_string_first_unescaped_quote :
  (forall (pre : list ascii) (open : ascii) (body : list piece)
          (close : ascii) (rest : TextQueue.t),
      forallb (fun c => negb (is_quote c)) pre = true ->
      is_quote open = true ->
      forallb well_formed_piece body = true ->
      is_quote close = true ->
      parse_string (pre ++ open :: flat_map written body ++ close :: rest)
      = (Ok (VStr (Str.of_chars (flat_map meant body))), rest))
  /\ parse ("value: " ++ dq ++ "a\" ++ dq ++ "b" ++ dq ++ ";")
     = (Ok (VNode (mkBONNode (Some "value") (VStr ("a" ++ dq ++ "b")))), []).
Proof.
  split; [|vm_compute; reflexivity].
  intros pre open body close rest Hpre Hopen Hbody Hclose.
  unfold parse_string.
  rewrite string_loop_open by assumption.
  now rewrite string_loop_body by assumption.
Qed.

(** A string opened with a single quote and closed with a double quote,
    around an escaped double quote. *)
Lemma parse_string_first_unescaped_quote_witness :
  forallb (fun c => negb (is_quote c)) [" "%char] = true
  /\ is_quote Char.squote = true
  /\ forallb well_formed_piece
       [Plain "a"; Escaped Char.dquote; Plain "b"] = true
  /\ is_quote Char.dquote = true
  /\ parse_string
       (init (" 'a\" ++ dq ++ "b" ++ dq ++ ";"))
     = (Ok (VStr ("a" ++ dq ++ "b")), [";"%char]).
Proof.
  do 4 (split; [reflexivity|]).
  exact (proj1 parse_string_first_unescaped_quote
           [" "%char] Char.squote
           [Plain "a"; Escaped Char.dquote; Plain "b"] Char.dquote
           [";"%char] eq_refl eq_refl eq_refl eq_refl).
Defined.

End Strings.

(* ================================================================= *)
(** ** Numbers *)

Section Numbers.
Import BONParser.

Lemma chars_of_chars (l : list ascii) : Str.chars (Str.of_chars l) = l.
Proof. apply list_ascii_of_string_of_list_ascii. Qed.

Lemma mem_of_chars (c : ascii) (l : list ascii) :
  Str.mem c (Str.of_chars l) = existsb (Ascii.eqb c) l.
Proof. unfold Str.mem. now rewrite chars_of_chars. Qed.

Lemma existsb_eqb_In (c : ascii) (l : list ascii) :
  existsb (Ascii.eqb c) l = true <-> In c l.
Proof.
  rewrite existsb_exists. split.
  - intros (x & Hx & E). apply Ascii.eqb_eq in E. now subst.
  - intros H. exists c. split; [exact H|apply Ascii.eqb_refl].
Qed.

Lemma count_snoc (c x : ascii) (l : list ascii) :
  Str.count c (l ++ [x])
  = (Str.count c l + if Ascii.eqb c x then 1 else 0)%nat.
Proof.
  unfold Str.count. rewrite filter_app, length_app. cbn [filter].
  now destruct (Ascii.eqb c x).
Qed.

Lemma count_pos (c : ascii) (l : list ascii) :
  (0 < Str.count c l)%nat <-> In c l.
Proof.
  unfold Str.count. induction l as [|x l IH]; cbn [filter In List.length].
  - split; [lia|tauto].
  - destruct (Ascii.eqb c x) eqn:E; cbn [List.length].
    + apply Ascii.eqb_eq in E. subst. split; [now left|lia].
    + rewrite IH. split; [now right|].
      intros [->|H]; [|exact H]. now rewrite Ascii.eqb_refl in E.
Qed.

Lemma rindex_from_snoc (c x : ascii) (l : list ascii) :
  forall i,
    Str.rindex_from i c (l ++ [x])
    = if Ascii.eqb x c then Some (i + List.length l)%nat
      else Str.rindex_from i c l.
Proof.
  induction l as [|y l IH]; intros i; cbn [app Str.rindex_from List.length].
  - rewrite Nat.add_0_r. now destruct (Ascii.eqb x c).
  - rewrite IH. destruct (Ascii.eqb x c); [f_equal; lia|reflexivity].
Qed.

Lemma rindex_from_lt (c : ascii) (l : list ascii) :
  forall i j, Str.rindex_from i c l = Some j -> (j < i + List.length l)%nat.
Proof.
  induction l as [|y l IH]; intros i j; cbn [Str.rindex_from List.length];
    [discriminate|].
  destruct (Str.rindex_from (S i) c l) as [k|] eqn:E.
  - intros [= <-]. apply IH in E. lia.
  - destruct (Ascii.eqb y c); [|discriminate]. intros [= <-]. lia.
Qed.

Lemma float_result_no_token_error (s : string) :
  ~ float_token_error
      match Num.py_float s with
      | Some x => Ok (VFloat x)
      | None => Raise ValueError
      end.
Proof. destruct (Num.py_float s); intros [H|H]; discriminate H. Qed.

(** [parse_float] stops on one of its two errors about [f] exactly when
    an [f] stands before the last character. *)
Lemma parse_float_token_error (l : list ascii) :
  float_token_error (parse_float (Str.of_chars l)) <-> f_before_last l.
Proof.
  unfold parse_float, f_before_last.
  rewrite mem_of_chars, chars_of_chars.
  induction l as [|x l' _] using rev_ind.
  - cbn. split; [intros [H|H]; discriminate H|tauto].
  - rewrite removelast_last, count_snoc, length_app.
    unfold Str.rindex. rewrite rindex_from_snoc. cbn [List.length].
    rewrite existsb_app. cbn [existsb]. rewrite orb_false_r.
    rewrite (Ascii.eqb_sym x "f").
    pose proof (count_pos "f" l') as Hin.
    pose proof (existsb_eqb_In "f" l') as Hex.
    destruct (Ascii.eqb "f" x).
    + replace (Nat.eqb (0 + List.length l') (List.length l' + 1 - 1)) with true
        by (symmetry; apply Nat.eqb_eq; lia).
      rewrite orb_true_r. cbn [negb andb].
      destruct (Nat.ltb 1 (Str.count "f" l' + 1)) eqn:Ec.
      * apply Nat.ltb_lt in Ec.
        split; [intros _; apply Hin; lia|intros _; now left].
      * apply Nat.ltb_ge in Ec. split.
        -- intros H. now apply float_result_no_token_error in H.
        -- intros H. apply Hin in H. lia.
    + rewrite Nat.add_0_r, orb_false_r.
      destruct (Nat.ltb 1 (Str.count "f" l')) eqn:Ec.
      * apply Nat.ltb_lt in Ec.
        split; [intros _; apply Hin; lia|intros _; now left].
      * destruct (existsb (Ascii.eqb "f") l') eqn:Em.
        -- assert (In "f"%char l') as Hf by now apply Hex.
           assert (negb match Str.rindex_from 0 "f" l' with
                        | Some i => Nat.eqb i (List.length l' + 1 - 1)
                        | None => false
                        end = true) as ->.
           { destruct (Str.rindex_from 0 "f" l') as [j|] eqn:Er;
               [|reflexivity].
             apply rindex_from_lt in Er.
             apply negb_true_iff, Nat.eqb_neq. lia. }
           cbn [andb]. split; [intros _; exact Hf|intros _; now right].
        -- cbn [andb]. split.
           ++ intros H. now apply float_result_no_token_error in H.
           ++ intros H. apply Hex in H. discriminate.
Qed.

Lemma more_than_once_before_last (l : list ascii) :
  f_more_than_once l -> f_before_last l.
Proof.
  unfold f_more_than_once, f_before_last.
  induction l as [|x l' _] using rev_ind; [cbn; lia|].
  rewrite removelast_last, count_snoc. intros H.
  apply count_pos. destruct (Ascii.eqb "f" x); lia.
Qed.

Lemma before_last_In (l : list ascii) : f_before_last l -> In "f"%char l.
Proof.
  unfold f_before_last.
  induction l as [|x l' _] using rev_ind; [tauto|].
  rewrite removelast_last, in_app_iff. tauto.
Qed.

Lemma parse_number_fst (q : TextQueue.t) :
  fst (parse_number q) = number_of_buffer (number_buffer q).
Proof.
  unfold parse_number, number_buffer. now destruct (number_loop [] q).
Qed.

Lemma integer_digits_mem (c : ascii) :
  Str.mem c integer_digits = Char.is_ascii_digit c.
Proof. destruct c as [[] [] [] [] [] [] [] []]; reflexivity. Qed.

Lemma number_of_buffer_eq (l : list ascii) :
  number_of_buffer l =
  if forallb digit_or_space l
  then match Num.py_int (Str.of_chars l) with
       | Some n => Ok (VInt n)
       | None => Raise ValueError
       end
  else parse_float (Str.of_chars l).
Proof.
  unfold number_of_buffer. rewrite buffer_chars_eq.
  replace (forallb _ l) with (forallb digit_or_space l); [reflexivity|].
  induction l as [|c l IH]; [reflexivity|]. cbn [forallb].
  rewrite IH. unfold digit_or_space. now rewrite integer_digits_mem.
Qed.

Lemma digit_or_space_not_f (l : list ascii) :
  forallb digit_or_space l = true -> ~ In "f"%char l.
Proof.
  rewrite forallb_forall. intros H Hf. apply H in Hf. discriminate.
Qed.

(** C5: [parse_number] stops on a float-token error exactly when the
    letter [f] occurs in the accumulated buffer more than once or at a
    place other than the last; [4] is the integer 4, [4f] the float 4,
    [4.5] the float 9/2 and [2e-5] the float 2/100000, and [4ff] and
    [4f5] stop on a float-token error. *)
Theorem parse_number_float_token :
  (forall q : TextQueue.t,
      float_token_error (fst (parse_number q))
      <-> f_more_than_once (number_buffer q)
          \/ f_before_last (number_buffer q))
  /\ fst (parse_number (init "4")) = Ok (VInt 4)
  /\ fst (parse_number (init "4f")) = Ok (VFloat (FFinite false 4))
  /\ fst (parse_number (init "4.5")) = Ok (VFloat (FFinite false (9 # 2)))
  /\ fst (parse_number (init "2e-5"))
     = Ok (VFloat (FFinite false (Qred (2 # 100000))))
  /\ float_token_error (fst (parse_number (init "4ff")))
  /\ float_token_error (fst (parse_number (init "4f5"))).
Proof.
  split; [|repeat split; solve [reflexivity | now left | now right]].
  intros q. rewrite parse_number_fst, number_of_buffer_eq.
  destruct (forallb digit_or_space (number_buffer q)) eqn:E.
  - apply digit_or_space_not_f in E. split.
    + intros [H|H]; destruct (Num.py_int _); discriminate H.
    + intros [H|H]; exfalso; apply E, before_last_In;
        [now apply more_than_once_before_last|exact H].
  - rewrite parse_float_token_error. split; [now right|].
    intros [H|H]; [now apply more_than_once_before_last|exact H].
Qed.

(** *** Integers *)

Lemma lstrip_by_ext (p p' : ascii -> bool) (l : list ascii) :
  (forall c, In c l -> p c = p' c) ->
  Str.lstrip_by p l = Str.lstrip_by p' l.
Proof.
  induction l as [|c l IH]; intros H; [reflexivity|].
  cbn [Str.lstrip_by]. rewrite <- (H c) by now left.
  destruct (p c); [|reflexivity]. apply IH. intros; apply H. now right.
Qed.

Lemma lstrip_by_incl (p : ascii -> bool) (l : list ascii) :
  forall c, In c (Str.lstrip_by p l) -> In c l.
Proof.
  induction l as [|x l IH]; intros c; cbn [Str.lstrip_by]; [tauto|].
  destruct (p x); [|tauto]. intros H. right. now apply IH.
Qed.

Lemma strip_by_incl (p : ascii -> bool) (l : list ascii) :
  forall c, In c (Str.strip_by p l) -> In c l.
Proof.
  intros c. unfold Str.strip_by, Str.rstrip_by.
  rewrite <- in_rev. intros H. apply lstrip_by_incl in H.
  rewrite <- in_rev in H. now apply lstrip_by_incl in H.
Qed.

Lemma strip_by_ext (p p' : ascii -> bool) (l : list ascii) :
  (forall c, In c l -> p c = p' c) ->
  Str.strip_by p l = Str.strip_by p' l.
Proof.
  intros H. unfold Str.strip_by, Str.rstrip_by.
  rewrite (lstrip_by_ext p p' l H). f_equal.
  apply lstrip_by_ext. intros c Hc. apply H.
  rewrite <- in_rev in Hc. now apply lstrip_by_incl in Hc.
Qed.

(** Among digits and spaces, the only white space is the space. *)
Lemma digit_or_space_isspace (c : ascii) :
  digit_or_space c = true -> Char.is_numeric_space c = Ascii.eqb " " c.
Proof.
  destruct c as [[] [] [] [] [] [] [] []]; try discriminate; reflexivity.
Qed.

Lemma digit_or_space_sign (c : ascii) (l : list ascii) :
  digit_or_space c = true -> Num.sign (c :: l) = (false, c :: l).
Proof.
  destruct c as [[] [] [] [] [] [] [] []]; try discriminate; reflexivity.
Qed.

Lemma digit_or_space_underscore (c : ascii) :
  digit_or_space c = true -> Ascii.eqb c "_" = false.
Proof.
  destruct c as [[] [] [] [] [] [] [] []]; try discriminate; reflexivity.
Qed.

(** On digits and spaces [digitpart] reads the leading digits. *)
Lemma digitpart_digits (l : list ascii) :
  forallb Char.is_ascii_digit l = true -> Num.digitpart l = (l, []).
Proof.
  induction l as [|c l IH]; [reflexivity|].
  cbn [forallb]. intros H. apply andb_true_iff in H as [Hc Hl].
  cbn [Num.digitpart]. rewrite Hc.
  destruct l as [|u [|d l]]; [reflexivity| |].
  - now rewrite (IH Hl).
  - assert (Ascii.eqb u "_" = false) as ->.
    { apply digit_or_space_underscore. unfold digit_or_space.
      cbn [forallb] in Hl. apply andb_true_iff in Hl as [-> _].
      reflexivity. }
    cbn [andb]. now rewrite (IH Hl).
Qed.

Lemma digitpart_rest (l : list ascii) :
  forallb digit_or_space l = true ->
  forallb Char.is_ascii_digit l = false ->
  snd (Num.digitpart l) <> [].
Proof.
  induction l as [|c l IH]; [discriminate|].
  cbn [forallb]. intros H Hd. apply andb_true_iff in H as [Hc Hl].
  cbn [Num.digitpart].
  destruct (Char.is_ascii_digit c); [|discriminate].
  cbn [andb] in Hd. specialize (IH Hl Hd).
  destruct l as [|u [|d l]]; [discriminate| |].
  - destruct (Num.digitpart [u]). exact IH.
  - assert (Ascii.eqb u "_" = false) as ->.
    { apply digit_or_space_underscore.
      cbn [forallb] in Hl. now apply andb_true_iff in Hl as [-> _]. }
    cbn [andb]. destruct (Num.digitpart (u :: d :: l)). exact IH.
Qed.

Lemma py_int_digits_and_spaces (l : list ascii) :
  forallb digit_or_space l = true ->
  Num.py_int (Str.of_chars l) =
  let digits := Str.strip_char " " l in
  if (negb (Nat.eqb (List.length digits) 0)
      && forallb Char.is_ascii_digit digits
      && Nat.leb (List.length digits) Num.int_max_str_digits)%bool
  then Some (Num.digits_value digits) else None.
Proof.
  intros H. unfold Num.py_int. rewrite chars_of_chars. cbv zeta.
  assert (Hall : forall c, In c l -> digit_or_space c = true)
    by now apply forallb_forall.
  assert (Str.strip_numeric l = Str.strip_char " " l) as ->.
  { apply strip_by_ext. intros c Hc.
    now apply digit_or_space_isspace, Hall. }
  set (t := Str.strip_char " " l).
  assert (Ht : forallb digit_or_space t = true).
  { apply forallb_forall. intros c Hc. apply Hall.
    now apply strip_by_incl in Hc. }
  clearbody t. destruct t as [|c t]; [reflexivity|].
  rewrite digit_or_space_sign
    by (cbn [forallb] in Ht; now apply andb_true_iff in Ht as [-> _]).
  cbn [List.length Nat.eqb negb andb].
  destruct (forallb Char.is_ascii_digit (c :: t)) eqn:Ed.
  - rewrite (digitpart_digits _ Ed). cbn [List.length andb].
    now destruct (Nat.leb (S (List.length t)) Num.int_max_str_digits).
  - pose proof (digitpart_rest _ Ht Ed) as Hr.
    destruct (Num.digitpart (c :: t)) as [ds [|r rs]];
      [now cbn in Hr|].
    now destruct ds.
Qed.

(** C2, as the code has it: when the accumulated buffer holds only digits
    and spaces, [parse_number] returns the base-ten integer of the buffer
    without its leading and trailing spaces if what remains is a non-empty
    run of digits no longer than the interpreter's limit for [int], and
    raises ValueError if a space remains between digits, if no digit
    remains, or if the run is longer than the limit. *)
Theorem parse_number_integer (q : TextQueue.t) :
  forallb digit_or_space (number_buffer q) = true ->
  fst (parse_number q) =
  let digits := Str.strip_char " " (number_buffer q) in
  if (negb (Nat.eqb (List.length digits) 0)
      && forallb Char.is_ascii_digit digits
      && Nat.leb (List.length digits) Num.int_max_str_digits)%bool
  then Ok (VInt (Num.digits_value digits)) else Raise ValueError.
Proof.
  intros H. rewrite parse_number_fst, number_of_buffer_eq, H.
  rewrite (py_int_digits_and_spaces _ H). cbv zeta.
  now destruct (negb _ && _ && _)%bool.
Qed.

(** The buffer [ 12 ], with a space on each side, is the integer 12. *)
Lemma parse_number_integer_witness :
  forallb digit_or_space (number_buffer (init " 12 ")) = true
  /\ fst (parse_number (init " 12 ")) = Ok (VInt 12).
Proof.
  split; [reflexivity|].
  exact (parse_number_integer (init " 12 ") eq_refl).
Defined.

(** C2 fails as stated: the buffer of the text [1 2] is [1 2], digits
    and a space, and [parse_number] raises ValueError on it. *)
Lemma parse_number_space_between_digits :
  number_buffer (init "1 2") = ["1"; " "; "2"]%char
  /\ forallb digit_or_space (number_buffer (init "1 2")) = true
  /\ parse_number (init "1 2") = (Raise ValueError, []).
Proof. repeat split. Qed.

End Numbers.


(* ================================================================= *)
(** * Further properties of the module *)

(* ================================================================= *)
(** ** The queue, first in first out *)

Section QueueOrder.
Import TextQueue TextQueueFacts.

(** X1: a queue built from a text and printed with [str] gives the text
    back: the pushes of the constructor and the iteration by [peek] keep
    the order of the characters. *)
Theorem TextQueue_str_init (data : string) :
  str (init (Str.chars data)) = Some data.
Proof.
  rewrite str_all, init_id. unfold Str.of_chars, Str.chars.
  now rewrite string_of_list_ascii_of_string.
Qed.

(** X2: on a queue built from a text, [peek(index)] is the character of
    the text at that index, and it is [None] exactly from the length of the
    text on. *)
Theorem TextQueue_peek_init (data : list ascii) (index : nat) :
  peek index (init data) = nth_error data index
  /\ (peek index (init data) = None <-> (List.length data <= index)%nat).
Proof.
  rewrite peek_nth_error, init_id. split; [reflexivity|].
  apply nth_error_None.
Qed.

(** X3: [pop] hands out the characters of the text in their order, and an
    empty queue has nothing to pop; a [push] joins the queue at the back,
    behind what is already waiting. *)
Theorem TextQueue_first_in_first_out :
  (forall data,
      pop (init data)
      = match data with
        | [] => None
        | c :: rest => Some (c, init rest)
        end)
  /\ (forall x q,
         pop (push x q)
         = match pop q with
           | Some (c, q') => Some (c, push x q')
           | None => Some (x, q)
           end).
Proof.
  split.
  - intros data. rewrite init_id. destruct data as [|c rest];
      [reflexivity|]. now rewrite init_id.
  - intros x q. rewrite push_snoc. destruct q as [|c q']; [reflexivity|].
    cbn [app pop]. now rewrite push_snoc.
Qed.

(** X4: the queue is empty exactly when it holds no character, and then
    [peek()] answers [None]; otherwise [peek()] shows the character [pop]
    would take, and takes nothing. *)
Theorem TextQueue_peek_agrees_with_pop (q : TextQueue.t) :
  match pop q with
  | None => is_empty q = true /\ peek 0 q = None
  | Some (c, _) => is_empty q = false /\ peek 0 q = Some c
  end.
Proof.
  destruct q as [|c q']; cbn [pop].
  - split; reflexivity.
  - split; [|now rewrite peek_nth_error].
    apply not_true_iff_false. intros E. apply is_empty_nil in E. discriminate.
Qed.

End QueueOrder.

(* ================================================================= *)
(** ** The text a parser starts from *)

Section Sanitizing.
Import BONParser.

Lemma remove_spec (c x : ascii) (l : list ascii) :
  In x (Str.remove c l) <-> In x l /\ x <> c.
Proof.
  unfold Str.remove. rewrite filter_In. split; intros [H1 H2]; split;
    try exact H1.
  - intros ->. now rewrite Ascii.eqb_refl in H2.
  - apply negb_true_iff. now apply Ascii.eqb_neq.
Qed.

Lemma remove_absent (c : ascii) (l : list ascii) :
  ~ In c l -> Str.remove c l = l.
Proof.
  induction l as [|x l IH]; intros H; [reflexivity|].
  cbn [Str.remove filter] in *. destruct (Ascii.eqb x c) eqn:E.
  - apply Ascii.eqb_eq in E. subst. exfalso. apply H. now left.
  - cbn [negb]. f_equal. apply IH. intros Hc. apply H. now right.
Qed.

Lemma remove_remove (l : list ascii) :
  Str.remove Char.tab (Str.remove Char.newline l)
  = filter (fun c => negb (invalid_chars c)) l.
Proof.
  induction l as [|x l IH]; [reflexivity|].
  unfold Str.remove in *. cbn [filter]. unfold invalid_chars at 1.
  destruct (Ascii.eqb x Char.newline); cbn [negb].
  - rewrite orb_true_r. exact IH.
  - rewrite orb_false_r. cbn [filter].
    destruct (Ascii.eqb x Char.tab); cbn [negb]; now rewrite IH.
Qed.

(** X5: the queue of a new parser is the text with its tabs and newlines
    taken out: the other characters are all there, as often as in the text
    and in the order of the text.  So the queue holds no tab and no
    newline, and a text without tabs and newlines is loaded as it is. *)
Theorem BONParser_init_sanitized (data : string) :
  init data = filter (fun c => negb (invalid_chars c)) (Str.chars data)
  /\ ~ In Char.tab (init data)
  /\ ~ In Char.newline (init data)
  /\ (~ In Char.tab (Str.chars data) ->
      ~ In Char.newline (Str.chars data) ->
      init data = Str.chars data).
Proof.
  assert (E : init data
              = filter (fun c => negb (invalid_chars c)) (Str.chars data)).
  { unfold init. now rewrite TextQueueFacts.init_id, remove_remove. }
  split; [exact E|]. split; [|split].
  - rewrite E. intros H. apply filter_In in H as [_ H]. discriminate.
  - rewrite E. intros H. apply filter_In in H as [_ H]. discriminate.
  - intros Ht Hn. unfold init. rewrite TextQueueFacts.init_id.
    now rewrite (remove_absent _ _ Hn), (remove_absent _ _ Ht).
Qed.

(** A text with a tab and a newline inside, and a text without. *)
Lemma BONParser_init_sanitized_witness :
  init (String "a" (String Char.tab (String "b" (String Char.newline "a"))))
  = ["a"; "b"; "a"]%char
  /\ ~ In Char.tab (Str.chars "a: 1;")
  /\ ~ In Char.newline (Str.chars "a: 1;")
  /\ init "a: 1;" = Str.chars "a: 1;".
Proof.
  split.
  { exact (proj1 (BONParser_init_sanitized
                   (String "a" (String Char.tab
                      (String "b" (String Char.newline "a")))))). }
  assert (Ht : ~ In Char.tab (Str.chars "a: 1;"))
    by (cbn; intuition discriminate).
  assert (Hn : ~ In Char.newline (Str.chars "a: 1;"))
    by (cbn; intuition discriminate).
  split; [exact Ht|]. split; [exact Hn|].
  exact (proj2 (proj2 (proj2 (BONParser_init_sanitized "a: 1;"))) Ht Hn).
Defined.

End Sanitizing.

(* ================================================================= *)
(** ** What the classifier looks at *)

Section ClassifierKinds.
Import BONParser.

Lemma classify_space (n : nat) (alpha_found : bool) (s : list ascii) :
  classify false alpha_found (repeat " "%char n ++ s)
  = classify false alpha_found s.
Proof.
  induction n as [|n IH]; [reflexivity|].
  cbn [repeat app]. rewrite <- IH. now destruct alpha_found.
Qed.

Lemma classify_escaped (c : ascii) (alpha_found : bool) (s : list ascii) :
  classify false alpha_found (Char.backslash :: c :: s)
  = classify false alpha_found s.
Proof.
  assert (H : classify true alpha_found (c :: s) = classify false alpha_found s).
  { cbn [classify negb]. unfold next_escaped. now rewrite andb_false_r. }
  rewrite <- H. now destruct alpha_found.
Qed.

Lemma classify_after_letter (s : list ascii) :
  forall is_escaped, classify is_escaped true s <> number.
Proof.
  induction s as [|c s IH]; intros e; cbn [classify]; [discriminate|].
  destruct (negb e); [|apply IH].
  destruct (opening_map c) as [ty|] eqn:E.
  - unfold opening_map in E.
    repeat match type of E with
           | (if ?b then _ else _) = _ => destruct b
           end; congruence.
  - cbn [negb]. rewrite !andb_false_r. apply IH.
Qed.

Lemma isalpha_not_opener (c : ascii) :
  Char.isalpha c = true -> opening_map c = None.
Proof.
  destruct c as [[] [] [] [] [] [] [] []]; try discriminate; reflexivity.
Qed.

Lemma isdigit_not_opener (c : ascii) :
  Char.isdigit c = true -> opening_map c = None /\ Char.isalpha c = false.
Proof.
  destruct c as [[] [] [] [] [] [] [] []]; try discriminate; now split.
Qed.

(** X6: [determine_type] looks past leading spaces, and past a backslash
    together with the character it escapes: the kind it answers is the
    kind of the text behind them. *)
Theorem determine_type_skips :
  (forall n q,
      fst (determine_type (repeat " "%char n ++ q)) = fst (determine_type q))
  /\ (forall c q,
         fst (determine_type (Char.backslash :: c :: q))
         = fst (determine_type q)).
Proof.
  split; intros; rewrite !determine_type_classify; cbn [fst]; f_equal.
  - apply classify_space.
  - apply classify_escaped.
Qed.

(** X7: what the first character decides.  One of the five opening
    characters gives its kind at once; a digit gives [number], also when a
    key follows it; after a letter the answer is never [number], whatever
    digits the text holds; and an empty queue is [invalid]. *)
Theorem determine_type_first_character :
  (forall c q kind,
      opening_map c = Some kind -> fst (determine_type (c :: q)) = Ok kind)
  /\ (forall c q,
         Char.isdigit c = true -> fst (determine_type (c :: q)) = Ok number)
  /\ (forall c q,
         Char.isalpha c = true -> fst (determine_type (c :: q)) <> Ok number)
  /\ fst (determine_type []) = Ok invalid.
Proof.
  split; [|split; [|split]].
  - intros c q kind H. rewrite determine_type_classify. cbn. now rewrite H.
  - intros c q H. rewrite determine_type_classify. cbn.
    destruct (isdigit_not_opener c H) as [-> ->]. now rewrite H.
  - intros c q H. rewrite determine_type_classify. cbn.
    rewrite (isalpha_not_opener c H), H. cbn.
    intros [= E]. now apply classify_after_letter in E.
  - reflexivity.
Qed.

(** The colon of a key, a digit before a key, a letter before digits. *)
Lemma determine_type_first_character_witness :
  opening_map ":" = Some bon_node
  /\ fst (determine_type (Str.chars ": 1;")) = Ok bon_node
  /\ Char.isdigit "1" = true
  /\ fst (determine_type (Str.chars "1a: 2;")) = Ok number
  /\ Char.isalpha "a" = true
  /\ fst (determine_type (Str.chars "a1 2 3")) <> Ok number.
Proof.
  split; [reflexivity|]. split.
  { exact (proj1 determine_type_first_character ":"%char
             (Str.chars " 1;") bon_node eq_refl). }
  split; [reflexivity|]. split.
  { exact (proj1 (proj2 determine_type_first_character) "1"%char
             (Str.chars "a: 2;") eq_refl). }
  split; [reflexivity|].
  exact (proj1 (proj2 (proj2 determine_type_first_character)) "a"%char
           (Str.chars "1 2 3") eq_refl).
Defined.

End ClassifierKinds.

(* ================================================================= *)
(** ** The routines as a whole *)

Section Routines.
Import BONParser.

(** X8: each parse routine, started on any queue, comes to an end: it
    returns a value or raises.  The calls it nests and the turns of its
    loops never exceed four times the length of the queue plus four. *)
Theorem parse_routines_end (q : TextQueue.t) :
  returns (parse_value q) /\ returns (parse_list q)
  /\ returns (parse_node q) /\ returns (parse_object q).
Proof.
  destruct (enough (fuel_for q)) as (Hv & _ & Hl & Hn & Ho).
  unfold parse_value, parse_list, parse_node, parse_object.
  unfold fuel_for in *.
  split; [apply Hv; lia|]. split; [apply Hl; lia|].
  split; [apply Hn; lia|apply Ho; lia].
Qed.

(** X9: a routine that returns has not put anything back: [parse_value]
    leaves at most the characters it found, and [parse_node] and
    [parse_object], which return only after their closing token, leave
    fewer; so does [parse_list] on a queue that is not empty. *)
Theorem parse_routines_consume (q q' : TextQueue.t) (v : value) :
  (parse_value q = (Ok v, q') -> (List.length q' <= List.length q)%nat)
  /\ (parse_node q = (Ok v, q') -> (List.length q' < List.length q)%nat)
  /\ (parse_object q = (Ok v, q') -> (List.length q' < List.length q)%nat)
  /\ (parse_list q = (Ok v, q') ->
      (List.length q' <= pred (List.length q))%nat).
Proof.
  destruct (lengths (fuel_for q)) as (Hv & _ & Hl & Hn & Ho).
  unfold parse_value, parse_list, parse_node, parse_object.
  split; [|split; [|split]]; intros E.
  - specialize (Hv q v). rewrite E in Hv. now apply Hv.
  - specialize (Hn q [] None VNone v). rewrite E in Hn.
    specialize (Hn eq_refl). cbn [snd] in Hn.
    destruct q as [|c q]; [|cbn [List.length pred] in *; lia].
    unfold fuel_for in E. cbn in E. discriminate.
  - specialize (Ho q [] false v). rewrite E in Ho.
    specialize (Ho eq_refl). cbn [snd] in Ho.
    destruct q as [|c q]; [|cbn [List.length pred] in *; lia].
    unfold fuel_for in E. cbn in E. discriminate.
  - specialize (Hl q [] false v). rewrite E in Hl. now apply Hl.
Qed.

(** A node read to its semicolon, with a character left behind it. *)
Lemma parse_routines_consume_witness :
  parse_node (Str.chars "a: 1;x")
  = (Ok (VNode (mkBONNode (Some "a") (VInt 1))), ["x"%char])
  /\ (List.length ["x"%char] < List.length (Str.chars "a: 1;x"))%nat.
Proof.
  split; [vm_compute; reflexivity|].
  apply (proj1 (proj2 (parse_routines_consume (Str.chars "a: 1;x")
                         ["x"%char] (VNode (mkBONNode (Some "a") (VInt 1)))))).
  vm_compute. reflexivity.
Defined.

Lemma string_loop_result (q : TextQueue.t) :
  forall buffer start_found is_escaped,
    (exists s q', string_loop buffer start_found is_escaped q
                  = (Ok (VStr s), q'))
    \/ string_loop buffer start_found is_escaped q
       = (Raise (Exception missing_quote), []).
Proof.
  induction q as [|c q IH]; intros buffer sf e; cbn [string_loop];
    [now right|].
  destruct (sf && negb e && is_quote c)%bool.
  - left. rewrite buffer_chars_eq. now do 2 eexists.
  - destruct (sf && negb (invalid_chars c))%bool; [apply IH|].
    destruct (is_quote c); apply IH.
Qed.

Lemma parse_number_result (q : TextQueue.t) (v : value) (q' : TextQueue.t) :
  parse_number q = (Ok v, q') ->
  (exists n, v = VInt n) \/ (exists x, v = VFloat x).
Proof.
  unfold parse_number. destruct (number_loop [] q) as [b r].
  rewrite number_of_buffer_eq. intros [= E _]. revert E.
  destruct (forallb digit_or_space b).
  - destruct (Num.py_int _); [|discriminate].
    intros [= <-]. left. now eexists.
  - unfold parse_float.
    repeat match goal with
           | |- context [if ?c then _ else _] => destruct c
           end; try discriminate.
    destruct (Num.py_float _); [|discriminate].
    intros [= <-]. right. now eexists.
Qed.

Lemma parse_object_loop_result (fuel : nat) :
  forall nodes start_found q v q',
    parse_object_loop fuel nodes start_found q = (Ok v, q') ->
    exists o, v = VObject o.
Proof.
  induction fuel as [|fuel IH]; intros nodes sf q v q'; [discriminate|].
  assert (Hk : forall sf' q0,
             (w <- parse_value_fuel fuel ;;
              append_node nodes w (fun nodes' =>
                parse_object_loop fuel nodes' sf')) q0 = (Ok v, q') ->
             exists o, v = VObject o).
  { intros sf' q0. unfold bind.
    destruct (parse_value_fuel fuel q0) as [[w|e|] q1]; try discriminate.
    destruct w; cbn [append_node]; try discriminate. apply IH. }
  destruct q as [|c q].
  - rewrite parse_object_loop_nil. discriminate.
  - rewrite parse_object_loop_cons.
    destruct (Ascii.eqb c "{").
    + destruct (negb _); [discriminate|apply Hk].
    + destruct (Ascii.eqb c "}"); [intros [= <- _]; now eexists|].
      destruct (sf && negb (Ascii.eqb c " "))%bool; [|apply IH].
      destruct (negb _); [discriminate|apply Hk].
Qed.

(** X10: the value [parse_value] returns is of the kind the classifier
    announced: a [str] for a string, an [int] or a [float] for a number, a
    [BONNode] for a node, a [BONObject] for an object and, for a list, a
    list or [None]; when the classifier finds no kind, [parse_value]
    raises KeyError and leaves the queue as it is. *)
Theorem parse_value_kind (q : TextQueue.t) :
  match fst (determine_type q) with
  | Ok string_t =>
      forall v q', parse_value q = (Ok v, q') -> exists s, v = VStr s
  | Ok number =>
      forall v q', parse_value q = (Ok v, q') ->
                   (exists n, v = VInt n) \/ (exists x, v = VFloat x)
  | Ok bon_node =>
      forall v q', parse_value q = (Ok v, q') -> exists n, v = VNode n
  | Ok bon_object =>
      forall v q', parse_value q = (Ok v, q') -> exists o, v = VObject o
  | Ok bon_list =>
      forall v q', parse_value q = (Ok v, q') ->
                   (exists items, v = VList items) \/ (v = VNone /\ q' = [])
  | _ => parse_value q = (Raise KeyError, q)
  end.
Proof.
  rewrite determine_type_classify. cbn [fst].
  unfold parse_value, fuel_for. rewrite Nat.add_succ_r, parse_value_fuel_S.
  destruct (classify false false q); try intros v q' E.
  - unfold parse_string in E.
    destruct (string_loop_result q [] false false) as [(s & r & H)|H];
      rewrite H in E; [|discriminate].
    injection E as <- _. now eexists.
  - now apply parse_number_result in E.
  - now apply parse_object_loop_result in E.
  - now apply parse_list_loop_result in E.
  - apply (f_equal fst) in E. now apply parse_node_loop_node in E.
  - reflexivity.
Qed.

(** The text [4f] is a number and parses to a float. *)
Lemma parse_value_kind_witness :
  parse_value (Str.chars "4f") = (Ok (VFloat (FFinite false 4)), [])
  /\ ((exists n, VFloat (FFinite false 4) = VInt n)
      \/ (exists x, VFloat (FFinite false 4) = VFloat x)).
Proof.
  split; [vm_compute; reflexivity|].
  exact (parse_value_kind (Str.chars "4f") (VFloat (FFinite false 4)) []
           eq_refl).
Defined.

Lemma classify_spaces_bracket (n : nat) (is_escaped alpha_found : bool) :
  classify is_escaped alpha_found (repeat " "%char n ++ ["]"%char]) = invalid.
Proof.
  revert is_escaped. induction n as [|n IH]; intros e.
  - now destruct e.
  - cbn [repeat app classify]. destruct e; cbn; apply IH.
Qed.

(** X11: an empty pair of brackets is not read as an empty list.  The turn
    that takes the opening bracket asks [parse_value] for an element; on
    spaces and the closing bracket the classifier finds no kind, and the
    call ends in KeyError with the closing bracket still in the queue. *)
Theorem parse_list_empty_brackets (n : nat) :
  parse_list ("["%char :: repeat " "%char n ++ ["]"%char])
  = (Raise KeyError, repeat " "%char n ++ ["]"%char])
  /\ parse_value ("["%char :: repeat " "%char n ++ ["]"%char])
     = (Raise KeyError, repeat " "%char n ++ ["]"%char]).
Proof.
  assert (H : forall fuel,
             parse_list_loop (S (S fuel)) [] false
               ("["%char :: repeat " "%char n ++ ["]"%char])
             = (Raise KeyError, repeat " "%char n ++ ["]"%char])).
  { intros fuel. rewrite parse_list_loop_cons. cbn -[parse_value_fuel repeat].
    unfold bind. rewrite parse_value_fuel_S.
    now rewrite classify_spaces_bracket. }
  split.
  - unfold parse_list, fuel_for. rewrite Nat.add_succ_r.
    rewrite (Nat.add_succ_r _ 2). apply H.
  - unfold parse_value, fuel_for. rewrite Nat.add_succ_r.
    rewrite parse_value_fuel_S. cbn [classify negb opening_map].
    change (Ascii.eqb "[" "{") with false.
    change (Ascii.eqb "[" "[") with true. cbv iota.
    rewrite Nat.add_succ_r, (Nat.add_succ_r _ 1). apply H.
Qed.

End Routines.

(* ================================================================= *)
(** ** Strings, continued *)

Section StringOutcomes.
Import BONParser.

(** X12: [parse_string] has two outcomes only: it returns a [str], or it
    raises the exception about the missing quote, and then it has consumed
    the whole queue. *)
Theorem parse_string_outcomes (q : TextQueue.t) :
  (exists s q', parse_string q = (Ok (VStr s), q'))
  \/ parse_string q = (Raise (Exception missing_quote), []).
Proof. apply string_loop_result. Qed.

Lemma string_loop_no_quote (q : TextQueue.t) :
  forall buffer is_escaped,
    forallb (fun c => negb (is_quote c)) q = true ->
    string_loop buffer false is_escaped q
    = (Raise (Exception missing_quote), []).
Proof.
  induction q as [|c q IH]; intros buffer e H; [reflexivity|].
  cbn [forallb] in H. apply andb_true_iff in H as [Hc H].
  apply negb_true_iff in Hc. cbn [string_loop andb]. rewrite Hc.
  now apply IH.
Qed.

Lemma string_loop_open_body (body : list piece) :
  forall buffer,
    forallb well_formed_piece body = true ->
    string_loop buffer true false (flat_map written body)
    = (Raise (Exception missing_quote), []).
Proof.
  induction body as [|p body IH]; intros buffer H; [reflexivity|].
  cbn [forallb] in H. apply andb_true_iff in H as [Hp H].
  cbn [flat_map].
  destruct p as [c|c]; cbn [written app string_loop andb negb].
  - cbn [well_formed_piece] in Hp. apply andb_true_iff in Hp as [Hq Hb].
    apply negb_true_iff in Hq, Hb. rewrite Hq.
    unfold next_escaped. rewrite Hb. cbn [negb orb andb].
    destruct (invalid_chars c); cbn [negb]; now apply IH.
  - change (is_quote Char.backslash) with false.
    change (invalid_chars Char.backslash) with false.
    unfold next_escaped.
    change (Ascii.eqb Char.backslash Char.backslash) with true.
    cbn [negb orb andb]. rewrite andb_false_r.
    destruct (invalid_chars c) eqn:Hi; cbn [negb].
    + rewrite (invalid_not_quote _ Hi). now apply IH.
    + now apply IH.
Qed.

(** X13: an unterminated string.  On a text without any quote, and on a
    text whose opening quote is followed by plain and escaped characters
    only (an escaped quote does not close), [parse_string] raises the
    exception about the missing quote and leaves the queue empty. *)
Theorem parse_string_unterminated :
  (forall q,
      forallb (fun c => negb (is_quote c)) q = true ->
      parse_string q = (Raise (Exception missing_quote), []))
  /\ (forall pre open body,
         forallb (fun c => negb (is_quote c)) pre = true ->
         is_quote open = true ->
         forallb well_formed_piece body = true ->
         parse_string (pre ++ open :: flat_map written body)
         = (Raise (Exception missing_quote), [])).
Proof.
  split.
  - intros q H. now apply string_loop_no_quote.
  - intros pre open body Hpre Hopen Hbody. unfold parse_string.
    rewrite string_loop_open by assumption.
    now apply string_loop_open_body.
Qed.

(** A text without a quote; a string whose last quote is escaped. *)
Lemma parse_string_unterminated_witness :
  forallb (fun c => negb (is_quote c)) (Str.chars "abc") = true
  /\ parse_string (Str.chars "abc") = (Raise (Exception missing_quote), [])
  /\ forallb well_formed_piece [Plain "a"; Escaped Char.dquote] = true
  /\ parse_string (Char.dquote :: "a"%char :: Char.backslash
                   :: Char.dquote :: [])
     = (Raise (Exception missing_quote), []).
Proof.
  split; [reflexivity|]. split.
  { exact (proj1 parse_string_unterminated (Str.chars "abc") eq_refl). }
  split; [reflexivity|].
  exact (proj2 parse_string_unterminated [] Char.dquote
           [Plain "a"; Escaped Char.dquote] eq_refl eq_refl eq_refl).
Defined.

Lemma string_loop_clean (q : TextQueue.t) :
  forall buffer start_found is_escaped s q',
    forallb (fun c => negb (invalid_chars c)) buffer = true ->
    string_loop buffer start_found is_escaped q = (Ok (VStr s), q') ->
    forallb (fun c => negb (invalid_chars c)) (Str.chars s) = true.
Proof.
  induction q as [|c q IH]; intros buffer sf e s q' Hb; cbn [string_loop];
    [discriminate|].
  destruct (sf && negb e && is_quote c)%bool.
  - rewrite buffer_chars_eq. intros [= <- _].
    unfold Str.chars, Str.of_chars.
    now rewrite list_ascii_of_string_of_list_ascii.
  - destruct (sf && negb (invalid_chars c))%bool eqn:E.
    + apply IH. destruct (negb (Ascii.eqb c Char.backslash) || e)%bool;
        [|exact Hb].
      rewrite TextQueueFacts.push_snoc, forallb_app, Hb. cbn [forallb].
      apply andb_true_iff in E as [_ ->]. reflexivity.
    + destruct (is_quote c); now apply IH.
Qed.

(** X14: a string [parse_string] returns holds no tab and no newline. *)
Theorem parse_string_no_control (q q' : TextQueue.t) (s : string) :
  parse_string q = (Ok (VStr s), q') ->
  ~ In Char.tab (Str.chars s) /\ ~ In Char.newline (Str.chars s).
Proof.
  intros H. apply string_loop_clean in H; [|reflexivity].
  rewrite forallb_forall in H.
  split; intros Hc; apply H in Hc; discriminate.
Qed.

(** A string with an escaped tab inside. *)
Lemma parse_string_no_control_witness :
  parse_string (Char.dquote :: "a"%char :: Char.backslash :: Char.tab
                :: "b"%char :: Char.dquote :: [])
  = (Ok (VStr "ab"), [])
  /\ ~ In Char.tab (Str.chars "ab") /\ ~ In Char.newline (Str.chars "ab").
Proof.
  split; [reflexivity|].
  exact (parse_string_no_control
           (Char.dquote :: "a"%char :: Char.backslash :: Char.tab
            :: "b"%char :: Char.dquote :: []) [] "ab" eq_refl).
Defined.

End StringOutcomes.

(* ================================================================= *)
(** ** Numbers, continued *)

Section NumberBuffer.
Import BONParser.

Lemma number_loop_spec (q : TextQueue.t) :
  forall buffer,
    exists taken,
      number_loop buffer q = (buffer ++ taken, skipn (List.length taken) q)
      /\ firstn (List.length taken) q = taken
      /\ forallb number_char taken = true
      /\ match skipn (List.length taken) q with
         | [] => True
         | c :: _ => number_char c = false
         end.
Proof.
  induction q as [|c q IH]; intros buffer.
  - exists []. cbn. now rewrite app_nil_r.
  - cbn [number_loop]. fold (number_char c).
    destruct (number_char c) eqn:E.
    + destruct (IH (TextQueue.push c buffer)) as (t & H1 & H2 & H3 & H4).
      exists (c :: t). cbn [List.length skipn firstn forallb].
      rewrite H1, TextQueueFacts.push_snoc, <- app_assoc, H2, E, H3.
      now repeat split.
    + exists []. cbn. now rewrite app_nil_r.
Qed.

(** X15: [parse_number] takes from the front of the queue the longest run
    of digits, [.], [f], [e], [-] and spaces, and nothing else: the queue it
    leaves is the rest of the text, and that rest is empty or starts with a
    character of another sort. *)
Theorem parse_number_takes_longest_run (q : TextQueue.t) :
  q = number_buffer q ++ snd (parse_number q)
  /\ forallb number_char (number_buffer q) = true
  /\ match snd (parse_number q) with
     | [] => True
     | c :: _ => number_char c = false
     end.
Proof.
  unfold number_buffer, parse_number.
  destruct (number_loop_spec q []) as (t & H1 & H2 & H3 & H4).
  rewrite H1. cbn [fst snd app].
  split; [|split; assumption].
  rewrite <- H2 at 1. symmetry. apply firstn_skipn.
Qed.

Lemma strip_by_none (p : ascii -> bool) (l : list ascii) :
  forallb (fun c => negb (p c)) l = true -> Str.strip_by p l = l.
Proof.
  assert (H : forall l, forallb (fun c => negb (p c)) l = true ->
                        Str.lstrip_by p l = l).
  { intros [|c l']; [reflexivity|]. cbn [forallb Str.lstrip_by].
    intros E. apply andb_true_iff in E as [E _].
    apply negb_true_iff in E. now rewrite E. }
  intros E. unfold Str.strip_by, Str.rstrip_by.
  rewrite (H l E), H, rev_involutive; [reflexivity|].
  rewrite forallb_forall in *. intros c Hc. apply E. now apply in_rev.
Qed.

Lemma strip_by_last (p : ascii -> bool) (l : list ascii) (x : ascii) :
  forallb (fun c => negb (p c)) l = true -> p x = true ->
  Str.strip_by p (l ++ [x]) = l.
Proof.
  intros E Hx. unfold Str.strip_by, Str.rstrip_by.
  assert (Hl : Str.lstrip_by p (l ++ [x]) = match l with
                                             | [] => []
                                             | _ => l ++ [x]
                                             end).
  { destruct l as [|c l']; cbn [app Str.lstrip_by]; [now rewrite Hx|].
    cbn [forallb] in E. apply andb_true_iff in E as [E _].
    apply negb_true_iff in E. now rewrite E. }
  rewrite Hl. destruct l as [|c l']; [reflexivity|].
  rewrite rev_app_distr. cbn [rev app Str.lstrip_by]. rewrite Hx.
  change (Str.lstrip_by p (rev l' ++ [c])) with (Str.lstrip_by p (rev (c :: l'))).
  assert (Hr : forallb (fun c => negb (p c)) (rev (c :: l')) = true).
  { rewrite forallb_forall in *. intros y Hy. apply E. now apply in_rev. }
  assert (Hs : Str.lstrip_by p (rev (c :: l')) = rev (c :: l')).
  { destruct (rev (c :: l')) as [|y r]; [reflexivity|].
    cbn [forallb Str.lstrip_by] in *. apply andb_true_iff in Hr as [Hr _].
    apply negb_true_iff in Hr. now rewrite Hr. }
  rewrite Hs. apply rev_involutive.
Qed.

(** X16: for [parse_float] one closing [f] is a mark without a value of
    its own: on a text without [f], and on that text followed by [f], it
    gives what [float] gives on the text, and ValueError when [float]
    rejects it. *)
Theorem parse_float_closing_f (l : list ascii) :
  ~ In "f"%char l ->
  parse_float (Str.of_chars (l ++ ["f"%char])) = parse_float (Str.of_chars l)
  /\ parse_float (Str.of_chars l)
     = match Num.py_float (Str.of_chars l) with
       | Some x => Ok (VFloat x)
       | None => Raise ValueError
       end.
Proof.
  intros H.
  assert (Hall : forallb (fun c => negb (Ascii.eqb "f" c)) l = true).
  { apply forallb_forall. intros c Hc. apply negb_true_iff, Ascii.eqb_neq.
    intros <-. contradiction. }
  assert (Hcount : Str.count "f" l = 0%nat).
  { destruct (Str.count "f" l) eqn:E; [reflexivity|].
    exfalso. apply H, count_pos. lia. }
  assert (Hmem : existsb (Ascii.eqb "f") l = false).
  { apply not_true_iff_false. now rewrite existsb_eqb_In. }
  assert (E2 : parse_float (Str.of_chars l)
               = match Num.py_float (Str.of_chars l) with
                 | Some x => Ok (VFloat x)
                 | None => Raise ValueError
                 end).
  { unfold parse_float. rewrite mem_of_chars, chars_of_chars, Hcount, Hmem.
    cbn [Nat.ltb Nat.leb andb]. unfold Str.strip_char.
    now rewrite (strip_by_none _ _ Hall). }
  split; [|exact E2]. rewrite E2.
  unfold parse_float. rewrite mem_of_chars, chars_of_chars, count_snoc, Hcount.
  rewrite Ascii.eqb_refl. change (Nat.ltb 1 (0 + 1)) with false. cbv iota.
  unfold Str.rindex. rewrite rindex_from_snoc, Ascii.eqb_refl, length_app.
  cbn [List.length Nat.add].
  replace (Nat.eqb (List.length l) (List.length l + 1 - 1)) with true
    by (symmetry; apply Nat.eqb_eq; lia).
  cbn [negb]. rewrite andb_false_r. unfold Str.strip_char.
  now rewrite (strip_by_last _ l "f"%char Hall eq_refl).
Qed.

(** The text [4] and the text [4f]. *)
Lemma parse_float_closing_f_witness :
  ~ In "f"%char ["4"%char]
  /\ parse_float "4f" = parse_float "4"
  /\ parse_float "4" = Ok (VFloat (FFinite false 4)).
Proof.
  assert (H : ~ In "f"%char ["4"%char]) by (cbn; intuition discriminate).
  split; [exact H|]. exact (parse_float_closing_f ["4"%char] H).
Defined.

End NumberBuffer.

(* ================================================================= *)
(** ** Nodes *)

Section Nodes.
Import BONParser.

(** Before the colon the node loop collects the characters that are not
    spaces. *)
Lemma parse_node_loop_key (pre : list ascii) :
  forall fuel buffer rest,
    forallb inside_node pre = true ->
    parse_node_loop (List.length pre + fuel) buffer None VNone (pre ++ rest)
    = parse_node_loop fuel (buffer ++ Str.remove " " pre) None VNone rest.
Proof.
  induction pre as [|c pre IH]; intros fuel buffer rest H.
  - cbn. now rewrite app_nil_r.
  - cbn [forallb] in H. apply andb_true_iff in H as [Hc H].
    unfold inside_node in Hc. apply andb_true_iff in Hc as [Hc1 Hc2].
    apply negb_true_iff in Hc1, Hc2.
    cbn [List.length Nat.add app]. rewrite parse_node_loop_cons, Hc1, Hc2.
    cbn [Str.remove filter]. rewrite andb_true_r.
    destruct (Ascii.eqb c " "); cbn [negb].
    + now apply IH.
    + rewrite TextQueueFacts.push_snoc, IH by assumption.
      now rewrite <- app_assoc.
Qed.

(** After the value the node loop passes over everything up to the
    semicolon. *)
Lemma parse_node_loop_tail (tail : list ascii) :
  forall fuel buffer key val rest,
    forallb inside_node tail = true ->
    parse_node_loop (List.length tail + S fuel) buffer (Some key) val
      (tail ++ ";"%char :: rest)
    = (Ok (VNode (mkBONNode (Some key) val)), rest).
Proof.
  induction tail as [|c tail IH]; intros fuel buffer key val rest H.
  - cbn [List.length Nat.add app]. now rewrite parse_node_loop_cons.
  - cbn [forallb] in H. apply andb_true_iff in H as [Hc H].
    unfold inside_node in Hc. apply andb_true_iff in Hc as [Hc1 Hc2].
    apply negb_true_iff in Hc1, Hc2.
    cbn [List.length Nat.add app]. rewrite parse_node_loop_cons, Hc1, Hc2.
    rewrite andb_false_r. now apply IH.
Qed.

(** X17: a node without a colon.  When a semicolon comes before any colon,
    [parse_node] returns a node whose key and value are both [None],
    whatever was written before the semicolon, and leaves what follows
    it. *)
Theorem parse_node_without_colon (pre rest : list ascii) :
  forallb inside_node pre = true ->
  parse_node (pre ++ ";"%char :: rest)
  = (Ok (VNode (mkBONNode None VNone)), rest).
Proof.
  intros H. unfold parse_node, fuel_for.
  replace (4 * List.length (pre ++ ";"%char :: rest) + 4)%nat
    with (List.length pre
          + S (3 * List.length pre + 4 * List.length rest + 7))%nat
    by (rewrite length_app; cbn [List.length]; lia).
  rewrite parse_node_loop_key by exact H.
  now rewrite parse_node_loop_cons.
Qed.

(** The text [abc;] read as a node. *)
Lemma parse_node_without_colon_witness :
  forallb inside_node (Str.chars "abc") = true
  /\ parse_node (Str.chars "abc;")
     = (Ok (VNode (mkBONNode None VNone)), []).
Proof.
  split; [reflexivity|].
  exact (parse_node_without_colon (Str.chars "abc") [] eq_refl).
Defined.

Lemma key_char_inside (l : list ascii) :
  forallb key_char l = true -> forallb inside_node l = true.
Proof.
  rewrite !forallb_forall. intros H c Hc. specialize (H c Hc).
  unfold key_char in H. unfold inside_node.
  apply andb_true_iff in H as [H H3]. apply andb_true_iff in H as [H1 _].
  rewrite H3, andb_true_r. unfold opening_map in H1.
  destruct (Ascii.eqb c ":"); [|reflexivity].
  destruct (Ascii.eqb c "{"), (Ascii.eqb c "["), (Ascii.eqb c Char.dquote),
    (Ascii.eqb c Char.squote); discriminate.
Qed.

Lemma classify_key (key : list ascii) :
  forall rest,
    forallb key_char key = true ->
    classify false true (key ++ ":"%char :: rest) = bon_node.
Proof.
  induction key as [|c key IH]; intros rest H; [reflexivity|].
  cbn [forallb] in H. apply andb_true_iff in H as [Hc H].
  unfold key_char in Hc. apply andb_true_iff in Hc as [Hc _].
  apply andb_true_iff in Hc as [Ho Hb]. apply negb_true_iff in Hb.
  cbn [app classify negb]. destruct (opening_map c); [discriminate|].
  rewrite !andb_false_r. unfold next_escaped. rewrite Hb. cbn [andb].
  now apply IH.
Qed.

(** A well-formed node with a string value, read by [parse_value] with
    any fuel from a bound on. *)
Lemma parse_value_fuel_string_node (key : list ascii) (body : list piece)
    (rest : list ascii) (extra : nat) :
  well_formed_string_node key body = true ->
  parse_value_fuel (extra + (List.length key + 4))
    (string_node_text key body ++ rest)
  = (Ok (VNode (string_node key body)), rest).
Proof.
  intros H. unfold well_formed_string_node in H.
  apply andb_true_iff in H as [Hk Hb].
  destruct key as [|c key]; [discriminate|].
  apply andb_true_iff in Hk as [Hc Hk].
  assert (E : parse_value_fuel (List.length (c :: key) + 4)
                (string_node_text (c :: key) body ++ rest)
              = (Ok (VNode (string_node (c :: key) body)), rest)).
  { replace (List.length (c :: key) + 4)%nat
      with (S (List.length (c :: key) + 3))%nat by lia.
    rewrite parse_value_fuel_S. unfold string_node_text.
    rewrite <- !app_assoc.
    assert (Hcl : classify false false
                    ((c :: key) ++ (":"%char :: " "%char :: Char.dquote
                        :: flat_map written body ++ [Char.dquote; ";"%char])
                       ++ rest) = bon_node).
    { cbn [app classify negb]. rewrite (isalpha_not_opener c Hc), Hc.
      cbn [negb andb]. unfold next_escaped.
      assert (Ascii.eqb c Char.backslash = false) as ->.
      { apply Ascii.eqb_neq. intros ->. discriminate. }
      cbn [andb]. now apply classify_key. }
    rewrite Hcl.
    assert (Hin : forallb inside_node (c :: key) = true).
    { cbn [forallb]. rewrite (key_char_inside _ Hk), andb_true_r.
      unfold inside_node. apply andb_true_iff.
      split; apply negb_true_iff, Ascii.eqb_neq; intros ->; discriminate. }
    rewrite parse_node_loop_key by exact Hin.
    cbn [app]. rewrite parse_node_loop_cons, Ascii.eqb_refl.
    assert (Hv : parse_value_fuel 2
                   (" "%char :: Char.dquote
                    :: (flat_map written body ++ [Char.dquote; ";"%char])
                       ++ rest)
                 = (Ok (VStr (Str.of_chars (flat_map meant body))),
                    ";"%char :: rest)).
    { change 2%nat with (S 1). rewrite parse_value_fuel_S.
      replace (classify false false _) with string_t by reflexivity.
      unfold parse_string. rewrite <- app_assoc.
      pose proof (string_loop_open [" "%char] false Char.dquote
                    (flat_map written body
                     ++ [Char.dquote; ";"%char] ++ rest)
                    eq_refl eq_refl) as Ho.
      cbn [app] in Ho. cbn [app]. rewrite Ho.
      now rewrite (string_loop_body body [] Char.dquote (";"%char :: rest)
                     Hb eq_refl). }
    unfold bind. rewrite Hv. rewrite parse_node_loop_cons. reflexivity. }
  rewrite parse_value_fuel_more; [exact E|].
  unfold returns. now rewrite E.
Qed.

(** X18: a node with a string value.  For a key that starts with a letter
    and holds no opening character, backslash or semicolon, and a body of
    plain and escaped characters, [parse_value] on [key: "body";] returns
    the node with that key, its spaces left out, and the string the body
    stands for, and leaves what follows the semicolon. *)
Theorem parse_value_string_node (key : list ascii) (body : list piece)
    (rest : list ascii) :
  well_formed_string_node key body = true ->
  parse_value (string_node_text key body ++ rest)
  = (Ok (VNode (string_node key body)), rest).
Proof.
  intros H. rewrite <- (parse_value_fuel_parse_value (0 + (List.length key + 4))).
  - now apply parse_value_fuel_string_node.
  - unfold returns. now rewrite parse_value_fuel_string_node.
Qed.

(** The node [value_1: "value";] of the module's own demonstration. *)
Lemma parse_value_string_node_witness :
  well_formed_string_node (Str.chars "value_1")
    [Plain "v"; Plain "a"; Plain "l"; Plain "u"; Plain "e"] = true
  /\ parse_value (init ("value_1: " ++ dq ++ "value" ++ dq ++ ";"))
     = (Ok (VNode (mkBONNode (Some "value_1") (VStr "value"))), []).
Proof.
  split; [reflexivity|].
  exact (parse_value_string_node (Str.chars "value_1")
           [Plain "v"; Plain "a"; Plain "l"; Plain "u"; Plain "e"] []
           eq_refl).
Defined.

End Nodes.

(* ================================================================= *)
(** ** Lists of integers *)

Section IntegerLists.
Import BONParser.

Lemma digit_number_char (c : ascii) :
  Char.is_ascii_digit c = true ->
  number_char c = true /\ digit_or_space c = true
  /\ Char.isdigit c = true /\ Ascii.eqb " " c = false.
Proof.
  destruct c as [[] [] [] [] [] [] [] []]; try discriminate; now repeat split.
Qed.

Lemma number_loop_app (taken : list ascii) :
  forall buffer rest,
    forallb number_char taken = true ->
    match rest with [] => True | c :: _ => number_char c = false end ->
    number_loop buffer (taken ++ rest) = (buffer ++ taken, rest).
Proof.
  induction taken as [|c taken IH]; intros buffer rest Ht Hr.
  - cbn [app]. rewrite app_nil_r. destruct rest as [|c rest]; [reflexivity|].
    cbn [number_loop]. fold (number_char c). now rewrite Hr.
  - cbn [forallb] in Ht. apply andb_true_iff in Ht as [Hc Ht].
    cbn [app number_loop]. fold (number_char c). rewrite Hc.
    rewrite IH by assumption.
    now rewrite TextQueueFacts.push_snoc, <- app_assoc.
Qed.

Lemma lstrip_by_repeat (p : ascii -> bool) (x : ascii) (n : nat)
    (l : list ascii) :
  p x = true -> Str.lstrip_by p (repeat x n ++ l) = Str.lstrip_by p l.
Proof.
  intros H. induction n as [|n IH]; [reflexivity|].
  cbn [repeat app Str.lstrip_by]. now rewrite H.
Qed.

Lemma strip_spaces_around (before after : nat) (digits : list ascii) :
  negb (Nat.eqb (List.length digits) 0) = true ->
  forallb Char.is_ascii_digit digits = true ->
  Str.strip_char " " (repeat " "%char before ++ digits ++ repeat " "%char after)
  = digits.
Proof.
  intros Hne Hd.
  assert (Hns : forall c, In c digits -> Ascii.eqb " " c = false).
  { intros c Hc. rewrite forallb_forall in Hd.
    now apply digit_number_char, Hd. }
  assert (Hhead : forall l r, l <> [] -> (forall c, In c l ->
                                Ascii.eqb " " c = false) ->
                    Str.lstrip_by (Ascii.eqb " ") (l ++ r) = l ++ r).
  { intros [|c l] r Hl Hc; [congruence|].
    cbn [app Str.lstrip_by]. now rewrite (Hc c (or_introl eq_refl)). }
  assert (Hd0 : digits <> []) by (destruct digits; [discriminate|congruence]).
  unfold Str.strip_char, Str.strip_by, Str.rstrip_by.
  rewrite lstrip_by_repeat by reflexivity.
  rewrite Hhead by assumption.
  rewrite rev_app_distr, rev_repeat, lstrip_by_repeat by reflexivity.
  rewrite <- (app_nil_r (rev digits)), Hhead.
  - now rewrite app_nil_r, rev_involutive.
  - intros E. apply Hd0. now rewrite <- (rev_involutive digits), E.
  - intros c Hc. apply Hns. now apply in_rev.
Qed.

(** An integer of a list, read by [parse_value] up to the comma or the
    bracket behind it. *)
Lemma parse_value_fuel_item (it : int_item) (fuel : nat) (rest : list ascii) :
  well_formed_item it = true ->
  match rest with [] => True | c :: _ => number_char c = false end ->
  parse_value_fuel (S fuel) (item_text it ++ rest) = (Ok (item_value it), rest).
Proof.
  destruct it as [[before digits] after]. cbn [well_formed_item item_value].
  intros H Hr. apply andb_true_iff in H as [H Hmax].
  apply andb_true_iff in H as [Hne Hd].
  assert (Hall : forall c, In c digits -> Char.is_ascii_digit c = true)
    by now apply forallb_forall.
  rewrite parse_value_fuel_S.
  assert (Hcl : classify false false
                  (item_text (before, digits, after) ++ rest) = number).
  { cbn [item_text]. rewrite <- app_assoc, classify_space.
    destruct digits as [|d digits]; [discriminate|].
    destruct (digit_number_char d (Hall d (or_introl eq_refl)))
      as (_ & _ & Hdig & _).
    cbn [app classify negb].
    destruct (isdigit_not_opener d Hdig) as [-> ->]. now rewrite Hdig. }
  rewrite Hcl. unfold parse_number.
  assert (Htaken : forallb number_char (item_text (before, digits, after))
                   = true).
  { cbn [item_text]. rewrite !forallb_app.
    assert (Hsp : forall n, forallb number_char (repeat " "%char n) = true)
      by (induction n; [reflexivity|assumption]).
    rewrite !Hsp, andb_true_r. cbn [andb].
    apply forallb_forall. intros c Hc. now apply digit_number_char, Hall. }
  rewrite number_loop_app; [|exact Htaken|exact Hr].
  cbn [app]. rewrite number_of_buffer_eq.
  assert (Hds : forallb digit_or_space (item_text (before, digits, after))
                = true).
  { cbn [item_text]. rewrite !forallb_app.
    assert (Hsp : forall n, forallb digit_or_space (repeat " "%char n) = true)
      by (induction n; [reflexivity|assumption]).
    rewrite !Hsp, andb_true_r. cbn [andb].
    apply forallb_forall. intros c Hc. now apply digit_number_char, Hall. }
  rewrite Hds, (py_int_digits_and_spaces _ Hds). cbv zeta.
  cbn [item_text]. rewrite (strip_spaces_around _ _ _ Hne Hd).
  now rewrite Hne, Hd, Hmax.
Qed.

Lemma items_tail_head (items : list int_item) (rest : list ascii) :
  match items_tail items ++ rest with
  | [] => True
  | c :: _ => number_char c = false
  end.
Proof. destruct items; reflexivity. Qed.

(** The turns of the list loop after the first item. *)
Lemma parse_list_loop_items (items : list int_item) :
  forall extra new_list rest,
    forallb well_formed_item items = true ->
    parse_list_loop (S (List.length items + extra)) new_list true
      (items_tail items ++ rest)
    = (Ok (VList (new_list ++ map item_value items)), rest).
Proof.
  induction items as [|it items IH]; intros extra nl rest H.
  - cbn [items_tail app map]. rewrite parse_list_loop_cons, app_nil_r.
    reflexivity.
  - cbn [forallb] in H. apply andb_true_iff in H as [Hit H].
    cbn [items_tail app map List.length Nat.add].
    rewrite parse_list_loop_cons. cbv zeta.
    change (Ascii.eqb "," ",") with true. cbn [negb andb orb].
    unfold bind. rewrite <- app_assoc.
    rewrite (parse_value_fuel_item it _ _ Hit (items_tail_head items rest)).
    rewrite IH by exact H. now rewrite <- app_assoc.
Qed.

(** X19: a list of integers.  For a first item and further items that are
    each a non-empty run of digits, no longer than the interpreter's limit
    of 4300 digits for [int], with any spaces around it, [parse_value] on
    the bracketed, comma-separated text returns the list of their base-ten
    values in order, and leaves what follows the closing bracket. *)
Theorem parse_value_int_list (first : int_item) (others : list int_item)
    (rest : list ascii) :
  forallb well_formed_item (first :: others) = true ->
  parse_value (int_list_text first others ++ rest)
  = (Ok (VList (map item_value (first :: others))), rest).
Proof.
  intros H. cbn [forallb] in H. apply andb_true_iff in H as [Hf Ho].
  assert (E : parse_value_fuel (S (S (S (List.length others + 0))))
                (int_list_text first others ++ rest)
              = (Ok (VList (map item_value (first :: others))), rest)).
  { rewrite parse_value_fuel_S. unfold int_list_text.
    replace (classify false false _) with bon_list by reflexivity.
    cbn [app]. rewrite parse_list_loop_cons. cbv zeta.
    change (Ascii.eqb "[" "[") with true. cbn [negb andb orb].
    rewrite orb_true_r. unfold bind. rewrite <- app_assoc.
    rewrite (parse_value_fuel_item first _ _ Hf (items_tail_head others rest)).
    now rewrite parse_list_loop_items by exact Ho. }
  rewrite <- (parse_value_fuel_parse_value _ _ ltac:(unfold returns; now rewrite E)).
  exact E.
Qed.

(** The list [[1, 20 ,3]]. *)
Lemma parse_value_int_list_witness :
  forallb well_formed_item
    [(0, ["1"%char], 0); (1, ["2"; "0"]%char, 1); (0, ["3"%char], 0)]%nat = true
  /\ parse_value (Str.chars "[1, 20 ,3]")
     = (Ok (VList [VInt 1; VInt 20; VInt 3]), []).
Proof.
  split; [reflexivity|].
  exact (parse_value_int_list (0, ["1"%char], 0)%nat
           [(1, ["2"; "0"]%char, 1); (0, ["3"%char], 0)]%nat [] eq_refl).
Defined.

End IntegerLists.

(* ================================================================= *)
(** ** Objects of string nodes *)

Section Objects.
Import BONParser.

Lemma classify_string_node (key : list ascii) (body : list piece)
    (rest : list ascii) :
  well_formed_string_node key body = true ->
  classify false false (string_node_text key body ++ rest) = bon_node.
Proof.
  unfold well_formed_string_node. intros H.
  apply andb_true_iff in H as [Hk _].
  destruct key as [|c key]; [discriminate|].
  apply andb_true_iff in Hk as [Hc Hk].
  unfold string_node_text. rewrite <- app_assoc.
  cbn [app classify negb]. rewrite (isalpha_not_opener c Hc), Hc.
  cbn [negb andb]. unfold next_escaped.
  assert (Ascii.eqb c Char.backslash = false) as ->.
  { apply Ascii.eqb_neq. intros ->. discriminate. }
  cbn [andb]. now apply classify_key.
Qed.

Lemma string_node_text_length (key : list ascii) (body : list piece) :
  (List.length key + 5 <= List.length (string_node_text key body))%nat.
Proof.
  unfold string_node_text. rewrite length_app. cbn [List.length].
  rewrite length_app. cbn [List.length]. lia.
Qed.

Lemma parse_value_fuel_string_node_ge (key : list ascii) (body : list piece)
    (rest : list ascii) (fuel : nat) :
  well_formed_string_node key body = true ->
  (List.length key + 4 <= fuel)%nat ->
  parse_value_fuel fuel (string_node_text key body ++ rest)
  = (Ok (VNode (string_node key body)), rest).
Proof.
  intros H Hf.
  replace fuel with ((fuel - (List.length key + 4)) + (List.length key + 4))%nat
    by lia.
  now apply parse_value_fuel_string_node.
Qed.

Lemma letter_not_brace (c : ascii) :
  Char.isalpha c = true ->
  Ascii.eqb c "{" = false /\ Ascii.eqb c "}" = false
  /\ Ascii.eqb c " " = false.
Proof.
  destruct c as [[] [] [] [] [] [] [] []]; try discriminate; now repeat split.
Qed.

Lemma parse_object_loop_spaces (gap : nat) :
  forall fuel nodes q,
    parse_object_loop (gap + fuel) nodes true (repeat " "%char gap ++ q)
    = parse_object_loop fuel nodes true q.
Proof.
  induction gap as [|gap IH]; intros fuel nodes q; [reflexivity|].
  cbn [repeat app Nat.add]. rewrite parse_object_loop_cons.
  change (Ascii.eqb " " "{") with false.
  change (Ascii.eqb " " "}") with false.
  change (Ascii.eqb " " " ") with true. cbn [negb andb]. apply IH.
Qed.

(** One node of the body and the spaces behind it, taken by the object
    loop once the opening brace has been read. *)
Lemma parse_object_loop_entry (e : obj_entry) (fuel : nat)
    (nodes : list BONNode) (q : list ascii) :
  well_formed_entry e = true ->
  (List.length (entry_text e) + 4 <= fuel)%nat ->
  parse_object_loop (S fuel) nodes true (entry_text e ++ q)
  = parse_object_loop (fuel - snd e) (nodes ++ [entry_node e]) true q.
Proof.
  destruct e as [[key body] gap]. cbn [well_formed_entry entry_text snd
                                       entry_node].
  intros H Hf. rewrite length_app, repeat_length in Hf.
  pose proof (string_node_text_length key body) as Hlen.
  pose proof (classify_string_node key body (repeat " "%char gap ++ q) H)
    as Hcl.
  rewrite <- app_assoc.
  assert (Hshape : exists c tl,
             string_node_text key body ++ repeat " "%char gap ++ q = c :: tl
             /\ Char.isalpha c = true).
  { unfold well_formed_string_node in H.
    destruct key as [|c key]; [discriminate|].
    apply andb_true_iff in H as [H _]. apply andb_true_iff in H as [Hc _].
    unfold string_node_text. rewrite <- app_assoc. cbn [app].
    now do 2 eexists. }
  destruct Hshape as (c & tl & Hq & Hc).
  destruct (letter_not_brace c Hc) as (E1 & E2 & E3).
  rewrite Hq, parse_object_loop_cons, E1, E2, E3, <- Hq, Hcl.
  cbn [negb andb BONType_eqb]. unfold bind.
  rewrite (parse_value_fuel_string_node_ge key body _ fuel H) by lia.
  cbn [append_node].
  replace fuel with (gap + (fuel - gap))%nat at 1 by lia.
  apply parse_object_loop_spaces.
Qed.

Lemma parse_object_loop_entries (entries : list obj_entry) :
  forall fuel nodes rest,
    forallb well_formed_entry entries = true ->
    (List.length (flat_map entry_text entries) + 5 <= fuel)%nat ->
    parse_object_loop fuel nodes true
      (flat_map entry_text entries ++ "}"%char :: rest)
    = (Ok (VObject (mkBONObject (nodes ++ map entry_node entries))), rest).
Proof.
  induction entries as [|e entries IH]; intros fuel nodes rest H Hf.
  - cbn [flat_map app map]. destruct fuel as [|fuel]; [cbn in Hf; lia|].
    rewrite parse_object_loop_cons, app_nil_r. reflexivity.
  - cbn [forallb] in H. apply andb_true_iff in H as [He H].
    cbn [flat_map map] in *. rewrite length_app in Hf.
    destruct fuel as [|fuel]; [lia|].
    rewrite <- app_assoc, parse_object_loop_entry by (assumption || lia).
    rewrite IH; [now rewrite <- app_assoc|exact H|].
    destruct e as [[key body] gap]. cbn [entry_text snd] in *.
    rewrite length_app, repeat_length in Hf.
    pose proof (string_node_text_length key body). lia.
Qed.

Lemma parse_value_object_text (first : obj_entry) (others : list obj_entry)
    (rest : list ascii) :
  forallb well_formed_entry (first :: others) = true ->
  parse_value (object_text first others ++ rest)
  = (Ok (VObject (mkBONObject (map entry_node (first :: others)))), rest).
Proof.
  intros H. cbn [forallb] in H. apply andb_true_iff in H as [Hf Ho].
  destruct first as [[key body] gap].
  cbn [well_formed_entry] in Hf.
  pose proof (string_node_text_length key body) as Hlen.
  set (fuel := (List.length (string_node_text key body) + gap
                + List.length (flat_map entry_text others) + 9)%nat).
  assert (E : parse_value_fuel (S (S (S fuel)))
                (object_text (key, body, gap) others ++ rest)
              = (Ok (VObject (mkBONObject
                                (map entry_node ((key, body, gap) :: others)))),
                 rest)).
  { rewrite parse_value_fuel_S. unfold object_text.
    replace (classify false false _) with bon_object by reflexivity.
    cbn [app entry_text entry_node map]. rewrite <- !app_assoc. cbn [app].
    rewrite parse_object_loop_cons.
    change (Ascii.eqb "{" "{") with true. cbv iota.
    rewrite (classify_string_node key body _ Hf).
    cbn [negb BONType_eqb]. unfold bind.
    rewrite (parse_value_fuel_string_node_ge key body _ (S fuel) Hf)
      by (unfold fuel; lia).
    cbn [append_node app].
    replace (S fuel) with (gap + (S fuel - gap))%nat at 1
      by (unfold fuel; lia).
    rewrite parse_object_loop_spaces.
    apply parse_object_loop_entries; [exact Ho|unfold fuel; lia]. }
  rewrite <- (parse_value_fuel_parse_value _ _
                ltac:(unfold returns; now rewrite E)).
  exact E.
Qed.

(** X20: an object of string nodes.  For a first node and further nodes
    that are each well formed, with any spaces behind their semicolons,
    [parse_value] on the braced text returns the object holding the nodes
    in the order they are written, and leaves what follows the closing
    brace. *)
Theorem parse_value_object (first : obj_entry) (others : list obj_entry)
    (rest : list ascii) :
  forallb well_formed_entry (first :: others) = true ->
  parse_value (object_text first others ++ rest)
  = (Ok (VObject (mkBONObject (map entry_node (first :: others)))), rest).
Proof. apply parse_value_object_text. Qed.

(** The object [{a: "x"; b: "y";}]. *)
Lemma parse_value_object_witness :
  forallb well_formed_entry
    [(["a"%char], [Plain "x"], 1%nat); (["b"%char], [Plain "y"], 0%nat)] = true
  /\ parse_value (init ("{a: " ++ dq ++ "x" ++ dq ++ "; b: "
                        ++ dq ++ "y" ++ dq ++ ";}"))
     = (Ok (VObject (mkBONObject [mkBONNode (Some "a") (VStr "x");
                                  mkBONNode (Some "b") (VStr "y")])), []).
Proof.
  split; [reflexivity|].
  exact (parse_value_object (["a"%char], [Plain "x"], 1%nat)
           [(["b"%char], [Plain "y"], 0%nat)] [] eq_refl).
Defined.

End Objects.

(* ================================================================= *)
(** ** Objects as collections of nodes *)

Section Collections.

Lemma key_eqb_false (k : option string) (item : value) :
  key_value k <> item -> PyEq.eqb (key_value k) item = false.
Proof.
  intros H. apply not_true_iff_false. intros E.
  apply PyEq_eqb_key in E. congruence.
Qed.

Lemma contains_loop_app (l1 l2 : list BONNode) (item : value) :
  contains_loop (l1 ++ l2) item
  = (contains_loop l1 item || contains_loop l2 item)%bool.
Proof.
  induction l1 as [|n l1 IH]; [reflexivity|]. cbn [app contains_loop].
  now destruct (PyEq.eqb (key_value (node_key n)) item).
Qed.

Lemma getitem_loop_app (l1 l2 : list BONNode) (item : value) :
  getitem_loop (l1 ++ l2) item
  = if contains_loop l1 item then getitem_loop l1 item
    else getitem_loop l2 item.
Proof.
  induction l1 as [|n l1 IH]; [reflexivity|]. cbn [app contains_loop getitem_loop].
  now destruct (PyEq.eqb (key_value (node_key n)) item).
Qed.

Lemma contains_loop_false (l : list BONNode) (item : value) :
  contains_loop l item = false
  <-> forall m, In m l -> key_value (node_key m) <> item.
Proof.
  rewrite <- not_true_iff_false, contains_loop_spec. split.
  - intros H m Hm E. apply H. now exists m.
  - intros H (m & Hm & E). now apply (H m).
Qed.

(** X21: lookup by key.  [obj[item]] raises KeyError exactly when
    [item in obj] is false; otherwise it returns the value of the first
    node with that key, whatever nodes with the same key come later. *)
Theorem BONObject_getitem_first (o : BONObject) (item : value) :
  (BONObject_getitem o item = Raise KeyError
   <-> BONObject_contains o item = false)
  /\ (forall l1 n l2,
         obj_nodes o = l1 ++ n :: l2 ->
         key_value (node_key n) = item ->
         (forall m, In m l1 -> key_value (node_key m) <> item) ->
         BONObject_getitem o item = Ok (node_value n)).
Proof.
  unfold BONObject_getitem, BONObject_contains. split.
  - induction (obj_nodes o) as [|n l IH]; cbn [getitem_loop contains_loop].
    + split; reflexivity.
    + destruct (PyEq.eqb (key_value (node_key n)) item); [|exact IH].
      split; discriminate.
  - intros l1 n l2 -> Hn Hl1. rewrite getitem_loop_app.
    rewrite (proj2 (contains_loop_false l1 item) Hl1).
    cbn [getitem_loop]. now rewrite (proj2 (PyEq_eqb_key _ _) (eq_sym Hn)).
Qed.

(** An object with the key [a] twice. *)
Lemma BONObject_getitem_first_witness :
  obj_nodes (mkBONObject [mkBONNode (Some "b") (VInt 0);
                          mkBONNode (Some "a") (VInt 1);
                          mkBONNode (Some "a") (VInt 2)])
  = [mkBONNode (Some "b") (VInt 0)]
      ++ mkBONNode (Some "a") (VInt 1) :: [mkBONNode (Some "a") (VInt 2)]
  /\ BONObject_getitem
       (mkBONObject [mkBONNode (Some "b") (VInt 0);
                     mkBONNode (Some "a") (VInt 1);
                     mkBONNode (Some "a") (VInt 2)]) (VStr "a")
     = Ok (VInt 1).
Proof.
  split; [reflexivity|].
  apply (proj2 (BONObject_getitem_first
                  (mkBONObject [mkBONNode (Some "b") (VInt 0);
                                mkBONNode (Some "a") (VInt 1);
                                mkBONNode (Some "a") (VInt 2)]) (VStr "a"))
           [mkBONNode (Some "b") (VInt 0)] (mkBONNode (Some "a") (VInt 1))
           [mkBONNode (Some "a") (VInt 2)] eq_refl eq_refl).
  intros m [<-|[]]. discriminate.
Defined.

(** X22: adding a node.  After [add_node] the object contains what it
    contained before and the key of the new node; a key that was already
    present keeps its old value under lookup, since the nodes are not
    merged, and a new key is looked up to the value of the new node. *)
Theorem BONObject_add_node_lookup (o : BONObject) (n : BONNode)
    (item : value) :
  BONObject_contains (BONObject_add_node o n) item
  = (BONObject_contains o item
     || PyEq.eqb (key_value (node_key n)) item)%bool
  /\ BONObject_getitem (BONObject_add_node o n) item
     = if BONObject_contains o item then BONObject_getitem o item
       else if PyEq.eqb (key_value (node_key n)) item then Ok (node_value n)
       else Raise KeyError.
Proof.
  unfold BONObject_contains, BONObject_getitem, BONObject_add_node.
  cbn [obj_nodes]. rewrite contains_loop_app, getitem_loop_app.
  cbn [contains_loop getitem_loop]. split; [|reflexivity].
  now destruct (PyEq.eqb (key_value (node_key n)) item).
Qed.

(** X23: removal by key.  [del obj[key]] raises KeyError when no node has
    the key; when the last node with the key is not the first node of the
    object, that node alone is removed and the others keep their order. *)
Theorem BONObject_delitem_last_match :
  (forall o key,
      BONObject_contains o key = false ->
      BONObject_delitem o key = Raise KeyError)
  /\ (forall l1 n l2,
         l1 <> [] ->
         (forall m, In m l2 -> key_value (node_key m) <> key_value (node_key n)) ->
         BONObject_delitem (mkBONObject (l1 ++ n :: l2))
           (key_value (node_key n))
         = Ok (mkBONObject (l1 ++ l2))).
Proof.
  split.
  - intros o key H. unfold BONObject_contains in H.
    unfold BONObject_delitem.
    rewrite delitem_scan_no_match; [reflexivity|].
    now apply contains_loop_false.
  - intros l1 n l2 Hne H. now apply BONObject_delitem_later.
Qed.

(** The key [a] twice, behind another node. *)
Lemma BONObject_delitem_last_match_witness :
  BONObject_contains (mkBONObject [mkBONNode (Some "b") (VInt 0)]) (VStr "a")
  = false
  /\ BONObject_delitem (mkBONObject [mkBONNode (Some "b") (VInt 0)]) (VStr "a")
     = Raise KeyError
  /\ [mkBONNode (Some "b") (VInt 0); mkBONNode (Some "a") (VInt 1)] <> []
  /\ BONObject_delitem
       (mkBONObject ([mkBONNode (Some "b") (VInt 0);
                      mkBONNode (Some "a") (VInt 1)]
                     ++ mkBONNode (Some "a") (VInt 2) :: []))
       (VStr "a")
     = Ok (mkBONObject [mkBONNode (Some "b") (VInt 0);
                        mkBONNode (Some "a") (VInt 1)]).
Proof.
  split; [reflexivity|]. split.
  { exact (proj1 BONObject_delitem_last_match
             (mkBONObject [mkBONNode (Some "b") (VInt 0)]) (VStr "a")
             eq_refl). }
  assert (Hne : [mkBONNode (Some "b") (VInt 0);
                 mkBONNode (Some "a") (VInt 1)] <> []) by discriminate.
  split; [exact Hne|].
  exact (proj2 BONObject_delitem_last_match
           [mkBONNode (Some "b") (VInt 0); mkBONNode (Some "a") (VInt 1)]
           (mkBONNode (Some "a") (VInt 2)) [] Hne
           (fun m (H : In m []) => match H with end)).
Defined.

(** X24: removal and duplicate keys.  When [del obj[key]] succeeds, the
    key is still in the object afterwards exactly when an earlier node
    carries it too, and then a lookup answers as it did before. *)
Theorem BONObject_delitem_duplicates (l1 l2 : list BONNode) (n : BONNode)
    (o' : BONObject) :
  (forall m, In m l2 -> key_value (node_key m) <> key_value (node_key n)) ->
  BONObject_delitem (mkBONObject (l1 ++ n :: l2)) (key_value (node_key n))
  = Ok o' ->
  BONObject_contains o' (key_value (node_key n))
  = contains_loop l1 (key_value (node_key n))
  /\ (contains_loop l1 (key_value (node_key n)) = true ->
      BONObject_getitem o' (key_value (node_key n))
      = BONObject_getitem (mkBONObject (l1 ++ n :: l2))
          (key_value (node_key n))).
Proof.
  intros H E.
  destruct l1 as [|x l1].
  - cbn [app] in E. rewrite BONObject_delitem_leading in E by exact H.
    discriminate.
  - rewrite (BONObject_delitem_later (x :: l1) l2 n) in E
      by (congruence || exact H).
    injection E as <-.
    unfold BONObject_contains, BONObject_getitem. cbn [obj_nodes].
    change (x :: l1 ++ l2) with ((x :: l1) ++ l2).
    rewrite contains_loop_app, !getitem_loop_app.
    rewrite (proj2 (contains_loop_false l2 _) H), orb_false_r.
    split; [reflexivity|]. now intros ->.
Qed.

(** The key [a] twice, behind another node: the second [a] is removed,
    the first still answers. *)
Lemma BONObject_delitem_duplicates_witness :
  BONObject_delitem
    (mkBONObject ([mkBONNode (Some "b") (VInt 0);
                   mkBONNode (Some "a") (VInt 1)]
                  ++ mkBONNode (Some "a") (VInt 2) :: []))
    (VStr "a")
  = Ok (mkBONObject [mkBONNode (Some "b") (VInt 0);
                     mkBONNode (Some "a") (VInt 1)])
  /\ BONObject_contains
       (mkBONObject [mkBONNode (Some "b") (VInt 0);
                     mkBONNode (Some "a") (VInt 1)]) (VStr "a")
     = true
  /\ BONObject_getitem
       (mkBONObject [mkBONNode (Some "b") (VInt 0);
                     mkBONNode (Some "a") (VInt 1)]) (VStr "a")
     = Ok (VInt 1).
Proof.
  split; [reflexivity|].
  destruct (BONObject_delitem_duplicates
              [mkBONNode (Some "b") (VInt 0); mkBONNode (Some "a") (VInt 1)]
              [] (mkBONNode (Some "a") (VInt 2))
              (mkBONObject [mkBONNode (Some "b") (VInt 0);
                            mkBONNode (Some "a") (VInt 1)])
              (fun m (H : In m []) => match H with end) eq_refl)
    as [Hc Hg].
  split; [exact Hc|]. exact (Hg eq_refl).
Defined.

(** X25: parsing, then looking up.  In the object parsed from a text of
    well-formed string nodes, the lookup of a key answers the string of the
    first node written with that key. *)
Theorem parse_then_lookup (first : obj_entry) (others : list obj_entry)
    (rest : list ascii) (before after : list obj_entry)
    (key : list ascii) (body : list piece) (gap : nat) :
  forallb well_formed_entry (first :: others) = true ->
  first :: others = before ++ (key, body, gap) :: after ->
  (forall e, In e before -> node_key (entry_node e) <> Some (key_of key)) ->
  exists o,
    BONParser.parse_value (object_text first others ++ rest)
    = (Ok (VObject o), rest)
    /\ BONObject_getitem o (VStr (key_of key))
       = Ok (VStr (Str.of_chars (flat_map meant body))).
Proof.
  intros Hwf Hsplit Hfirst.
  exists (mkBONObject (map entry_node (first :: others))). split.
  - now apply parse_value_object_text.
  - unfold BONObject_getitem. cbn [obj_nodes].
    rewrite Hsplit, map_app. cbn [map]. rewrite getitem_loop_app.
    assert (Hb : contains_loop (map entry_node before) (VStr (key_of key))
                 = false).
    { apply contains_loop_false. intros m Hm E.
      apply in_map_iff in Hm as (e & <- & He).
      apply (Hfirst e He).
      destruct (node_key (entry_node e)); [|discriminate].
      cbn in E. congruence. }
    rewrite Hb. cbn [getitem_loop]. unfold entry_node, string_node.
    cbn [node_key node_value].
    now rewrite (proj2 (PyEq_eqb_key (Some (key_of key))
                          (VStr (key_of key))) eq_refl).
Qed.

(** The object [{a: "x"; b: "y";}] and its key [b]. *)
Lemma parse_then_lookup_witness :
  exists o,
    BONParser.parse_value
      (BONParser.init ("{a: " ++ dq ++ "x" ++ dq ++ "; b: "
                       ++ dq ++ "y" ++ dq ++ ";}"))
    = (Ok (VObject o), [])
    /\ BONObject_getitem o (VStr "b") = Ok (VStr "y").
Proof.
  apply (parse_then_lookup (["a"%char], [Plain "x"], 1%nat)
           [(["b"%char], [Plain "y"], 0%nat)] []
           [(["a"%char], [Plain "x"], 1%nat)] []
           ["b"%char] [Plain "y"] 0%nat eq_refl eq_refl).
  intros e [<-|[]]. discriminate.
Defined.

End Collections.

(* ================================================================= *)
(** ** Lists without their closing bracket *)

Section OpenLists.
Import BONParser.





















End OpenLists.
